(** * hypopg.c: hook interception and explain-mode gating of HypoPG

    A shallow embedding of [hypopg.c], the unit that installs HypoPG in front
    of the planner's and executor's extensibility points, decides whether the
    current statement is a plan-only EXPLAIN, and, while it is, overlays the
    registry of hypothetical indexes and hypothetical partitioned tables on
    the planner's view of real relations.

    The C globals become the fields of one [State] record that every function
    threads explicitly. [ereport(ERROR)] is a non-local exit that leaves the
    globals as they were when it was raised, so a computation returns a
    [Result] together with the state reached. *)

From Stdlib Require Import List String Ascii Bool NArith ZArith Lia.
Import ListNotations.

Local Open Scope string_scope.

(** ** Host data, as far as this unit reads it *)

(** Object identifiers are unsigned 32-bit integers; this unit only compares
    them. *)
Definition Oid := N.

(** A pointer to a host structure that this unit passes on without reading
    it ([PlannerInfo *], [RelOptInfo *], [QueryDesc *], ...). *)
Definition Pointer := N.

Definition PlannerInfo := Pointer.
Definition RelOptInfo := Pointer.
Definition QueryDesc := Pointer.
Definition PlanRowMark := Pointer.
Definition Index := N.

(** [PartitionDesc] and [PartitionKey] are pointers that may be [NULL]. *)
Definition PartitionDesc := option Pointer.
Definition PartitionKey := option Pointer.

(** [relation->rd_id] and [relation->rd_rel->relkind]. *)
Record Relation := mkRelation {
  rd_id : Oid;
  rd_rel_relkind : ascii
}.

(** [rte->relid] and [rte->relkind]; [rte_addr] stands for the entry itself,
    which the injection helpers update in place. *)
Record RangeTblEntry := mkRangeTblEntry {
  rte_addr : Pointer;
  rte_relid : Oid;
  rte_relkind : ascii
}.

(** Relation kinds of [pg_class.h]. *)
Definition RELKIND_RELATION : ascii := "r"%char.
Definition RELKIND_MATVIEW : ascii := "m"%char.

Inductive LOCKMODE := AccessShareLock | RowExclusiveLock.

(** ** Parse nodes seen by the explain-mode detector *)

(** [DefElem]: an option of a utility statement. [arg] is carried by the
    node and never read by this unit. *)
Record DefElem := mkDefElem {
  defname : string;
  arg : option string
}.

(** A utility statement node: [nodeTag] is [T_ExplainStmt], with the
    statement's [options], or any other tag. *)
Inductive Node :=
| ExplainStmt (options : list DefElem)
| OtherNode (tag : N).

(** [PlannedStmt]: only [utilityStmt] is read, and it may be [NULL]. *)
Record PlannedStmt := mkPlannedStmt {
  utilityStmt : option Node
}.

(** What the utility hook is handed. From PostgreSQL 10 on
    ([PG_VERSION_NUM >= 100000]) it is a [PlannedStmt *] wrapping the
    utility statement; before, it is the parse tree itself. Either pointer
    may be [NULL]. *)
Inductive UtilityStmt :=
| Pstmt (pstmt : option PlannedStmt)
| Parsetree (parsetree : option Node).

(** The remaining arguments of [ProcessUtility], handed on verbatim. *)
Record UtilityArgs := mkUtilityArgs {
  queryString : string;
  context : N;
  params : Pointer;
  queryEnv : Pointer;
  isTopLevel : bool;
  dest : Pointer;
  completionTag : Pointer
}.

(** ** The explain-mode detector *)

(** The [foreach] over the explain statement's [options]: the first
    option named "analyze" returns false out of the loop; falling off the
    end returns true. *)
Fixpoint explain_options_walker (options : list DefElem) : bool :=
  match options with
  | [] => true
  | opt :: rest =>
      if String.eqb (defname opt) "analyze" then false
      else explain_options_walker rest
  end.

(** The [switch (nodeTag(parsetree))]. *)
Definition explain_node_walker (parsetree : Node) : bool :=
  match parsetree with
  | ExplainStmt options => explain_options_walker options
  | OtherNode _ => false
  end.

Definition hypo_query_walker (stmt : UtilityStmt) : bool :=
  match stmt with
  | Parsetree None => false
  | Parsetree (Some parsetree) => explain_node_walker parsetree
  | Pstmt None => false
  | Pstmt (Some pstmt) =>
      match utilityStmt pstmt with
      | None => false
      | Some parsetree => explain_node_walker parsetree
      end
  end.

(** The host's [query_or_expression_tree_walker] descends into a [Query]
    node and applies the walker directly to any other node. A utility hook
    is never handed a [Query], so the walker is applied to the statement
    itself. *)
Definition query_or_expression_tree_walker
    (node : UtilityStmt) (walker : UtilityStmt -> bool) : bool :=
  walker node.

(** The utility statement a [UtilityStmt] carries, if any. *)
Definition statement_node (stmt : UtilityStmt) : option Node :=
  match stmt with
  | Parsetree n => n
  | Pstmt None => None
  | Pstmt (Some pstmt) => utilityStmt pstmt
  end.

(** ** The registry of hypothetical objects *)

(** Modelled from the spec: [hypoIndex] is declared in
    [include/hypopg_index.h]. A hypothetical index has a synthetic identifier
    and the identifier of the table it shadows; this unit reads [relid]
    only. *)
Record hypoIndex := mkHypoIndex {
  oid : Oid;
  relid : Oid
}.

(** Modelled from the spec: [hypoTable] is declared in
    [include/hypopg_table.h]. A hypothetical table has a synthetic identifier
    and a partition key; this unit reads [partkey] only. *)
Record hypoTable := mkHypoTable {
  table_oid : Oid;
  partkey : PartitionKey
}.

(** ** Extensibility points and function pointers *)

(** The eleven extensibility points [_PG_init] wraps, in its order. *)
Inductive HookPoint :=
| ProcessUtility
| ExecutorEnd
| get_relation_info
| explain_get_index_name
| set_rel_pathlist
| RelationGetPartitionDesc
| RelationGetPartitionKey
| skip_has_subclass
| find_all_inheritors
| expand_child_rtentry
| build_child_rtentry.

Definition HookPoint_eq_dec (p q : HookPoint) : {p = q} + {p <> q}.
Proof. decide equality. Defined.

Definition all_hook_points : list HookPoint :=
  [ProcessUtility; ExecutorEnd; get_relation_info; explain_get_index_name;
   set_rel_pathlist; RelationGetPartitionDesc; RelationGetPartitionKey;
   skip_has_subclass; find_all_inheritors; expand_child_rtentry;
   build_child_rtentry].

(** A handler address: HypoPG's own interceptor for a point
    ([hypo_utility_hook], [hypo_executorEnd_hook], ...) or the code of
    another extension. A [NULL] hook variable is [None]. *)
Inductive fnptr :=
| hypo_hook (p : HookPoint)
| foreign (addr : N).

(** One hook variable per extensibility point. *)
Definition HookTable := HookPoint -> option fnptr.

(** Assignment to the hook variable of point [p]. *)
Definition assign (p : HookPoint) (f : option fnptr) (t : HookTable) : HookTable :=
  fun q => if HookPoint_eq_dec p q then f else t q.

(** ** Outcomes *)

(** A call returns, or leaves through [ereport(ERROR)] with a message. *)
Inductive Result (A : Type) :=
| Ok (a : A)
| Raise (msg : string).
Arguments Ok {A} a.
Arguments Raise {A} msg.

Section Machine.
(** Everything of the backend that is not a global of this extension:
    catalogs, the planner's working structures, memory contexts. *)
Variable World : Type.

(** The globals of the extension, the host's hook variables, and the rest
    of the backend. [hypoTables] is the registry of [hypopg_table.c]. *)
Record State := mkState {
  isExplain : bool;
  hypo_is_enabled : bool;
  HypoMemoryContext : option Pointer;
  hypoIndexes : list hypoIndex;
  hypoTables : list hypoTable;
  hook : HookTable;
  prev : HookTable;
  world : World
}.

Definition set_isExplain (b : bool) (s : State) : State :=
  mkState b (hypo_is_enabled s) (HypoMemoryContext s) (hypoIndexes s)
          (hypoTables s) (hook s) (prev s) (world s).

Definition set_hypo_is_enabled (b : bool) (s : State) : State :=
  mkState (isExplain s) b (HypoMemoryContext s) (hypoIndexes s)
          (hypoTables s) (hook s) (prev s) (world s).

Definition set_HypoMemoryContext (c : option Pointer) (s : State) : State :=
  mkState (isExplain s) (hypo_is_enabled s) c (hypoIndexes s)
          (hypoTables s) (hook s) (prev s) (world s).

Definition set_hypoIndexes (l : list hypoIndex) (s : State) : State :=
  mkState (isExplain s) (hypo_is_enabled s) (HypoMemoryContext s) l
          (hypoTables s) (hook s) (prev s) (world s).

Definition set_hypoTables (l : list hypoTable) (s : State) : State :=
  mkState (isExplain s) (hypo_is_enabled s) (HypoMemoryContext s)
          (hypoIndexes s) l (hook s) (prev s) (world s).

Definition set_hook (t : HookTable) (s : State) : State :=
  mkState (isExplain s) (hypo_is_enabled s) (HypoMemoryContext s)
          (hypoIndexes s) (hypoTables s) t (prev s) (world s).

Definition set_prev (t : HookTable) (s : State) : State :=
  mkState (isExplain s) (hypo_is_enabled s) (HypoMemoryContext s)
          (hypoIndexes s) (hypoTables s) (hook s) t (world s).

Definition set_world (w : World) (s : State) : State :=
  mkState (isExplain s) (hypo_is_enabled s) (HypoMemoryContext s)
          (hypoIndexes s) (hypoTables s) (hook s) (prev s) w.

(** [#define HYPO_ENABLED() (isExplain && hypo_is_enabled)] *)
Definition HYPO_ENABLED (s : State) : bool :=
  isExplain s && hypo_is_enabled s.

(** A C function with result [A]: it runs from a state and ends in one,
    returning or raising. *)
Definition M (A : Type) : Type := State -> Result A * State.

Definition ret {A : Type} (a : A) : M A := fun s => (Ok a, s).

(** Sequencing: an error skips what follows and keeps the state reached. *)
Definition bind {A B : Type} (m : M A) (k : A -> M B) : M B :=
  fun s =>
    match m s with
    | (Ok a, s') => k a s'
    | (Raise msg, s') => (Raise msg, s')
    end.

Definition gets {A : Type} (f : State -> A) : M A := fun s => (Ok (f s), s).

Definition modify (f : State -> State) : M unit := fun s => (Ok tt, f s).

(** A call that works on the backend only. *)
Definition in_world {A : Type} (f : World -> Result A * World) : M A :=
  fun s => let (r, w) := f (world s) in (r, set_world w s).

(** The state a run ends in, returned or raised. *)
Definition final {A : Type} (o : Result A * State) : State := snd o.

(** [foreach(lc, l) body], the body without [break] or [return]. *)
Fixpoint foreach {A : Type} (l : list A) (body : A -> M unit) : M unit :=
  match l with
  | [] => ret tt
  | x :: l' => bind (body x) (fun _ => foreach l' body)
  end.
End Machine.

Arguments mkState {World}.
Arguments isExplain {World} s.
Arguments hypo_is_enabled {World} s.
Arguments HypoMemoryContext {World} s.
Arguments hypoIndexes {World} s.
Arguments hypoTables {World} s.
Arguments hook {World} s.
Arguments prev {World} s.
Arguments world {World} s.
Arguments set_isExplain {World} b s.
Arguments set_hypo_is_enabled {World} b s.
Arguments set_HypoMemoryContext {World} c s.
Arguments set_hypoIndexes {World} l s.
Arguments set_hypoTables {World} l s.
Arguments set_hook {World} t s.
Arguments set_prev {World} t s.
Arguments set_world {World} w s.
Arguments HYPO_ENABLED {World} s.
Arguments ret {World A} a.
Arguments bind {World A B} m k.
Arguments gets {World A} f.
Arguments modify {World} f.
Arguments in_world {World A} f.
Arguments final {World A} o.
Arguments foreach {World A} l body.

Declare Scope hook_scope.
Delimit Scope hook_scope with hook.
Notation "x <- c1 ;; c2" := (bind c1 (fun x => c2))
  (at level 61, c1 at next level, right associativity) : hook_scope.
Notation "c1 ;; c2" := (bind c1 (fun _ => c2))
  (at level 61, right associativity) : hook_scope.
Local Open Scope hook_scope.

(** ** What this unit calls and does not define

    The host's services and default implementations, the handlers other
    extensions left in the hook variables, and the functions of
    [hypopg_index.c] and [hypopg_table.c]. They are parameters of the
    development: every theorem holds for whatever they do.

    A host service or a helper of the extension works on the backend, and
    is handed the registry when it reads it; it never writes the globals of
    the extension. A handler reached through a hook variable, and the host's
    default behind it, is an arbitrary computation: it may plan and run a
    whole statement and so come back into this unit. *)
Class Extern (World : Type) := {
  (** The host's version, fixed when the extension is built. *)
  PG_VERSION_NUM : Z;

  heap_open : Oid -> LOCKMODE -> World -> Result Relation * World;
  heap_close : Relation -> LOCKMODE -> World -> Result unit * World;
  AllocSetContextCreate : string -> World -> Result Pointer * World;
  (** Registers the setting and returns the value it starts with. *)
  DefineCustomBoolVariable :
    string -> string -> bool -> World -> Result bool * World;

  standard_ProcessUtility : UtilityStmt -> UtilityArgs -> M World unit;
  standard_ExecutorEnd : QueryDesc -> M World unit;

  (** The call through a saved handler [f], one per wrapped point. *)
  call_ProcessUtility : fnptr -> UtilityStmt -> UtilityArgs -> M World unit;
  call_ExecutorEnd : fnptr -> QueryDesc -> M World unit;
  call_get_relation_info :
    fnptr -> PlannerInfo -> Oid -> bool -> RelOptInfo -> M World unit;
  call_set_rel_pathlist :
    fnptr -> PlannerInfo -> RelOptInfo -> Index -> RangeTblEntry -> M World unit;
  call_RelationGetPartitionDesc : fnptr -> Oid -> M World PartitionDesc;
  call_RelationGetPartitionKey : fnptr -> Oid -> M World PartitionKey;
  call_skip_has_subclass : fnptr -> Oid -> M World bool;
  call_find_all_inheritors : fnptr -> Oid -> M World (list Oid);
  call_expand_child_rtentry :
    fnptr -> PlannerInfo -> RangeTblEntry -> Index -> Relation -> PlanRowMark ->
    Pointer -> PartitionDesc -> M World unit;
  call_build_child_rtentry : fnptr -> RangeTblEntry -> Oid -> Oid -> M World unit;

  (** Registry lookups of [hypopg_table.c]. *)
  hypo_table_oid_is_hypothetical : list hypoTable -> Oid -> bool;
  hypo_find_table : list hypoTable -> Oid -> Result hypoTable;
  hypo_find_inheritance_children : list hypoTable -> hypoTable -> list Oid;

  (** The injection engine of [hypopg_index.c] and [hypopg_table.c]. *)
  hypo_injectHypotheticalIndex :
    PlannerInfo -> Oid -> bool -> RelOptInfo -> Relation -> hypoIndex ->
    World -> Result unit * World;
  hypo_injectHypotheticalPartitioning :
    list hypoTable -> PlannerInfo -> Oid -> RelOptInfo ->
    World -> Result unit * World;
  hypo_setPartitionPathlist :
    list hypoTable -> PlannerInfo -> RelOptInfo -> Index -> RangeTblEntry ->
    World -> Result unit * World;
  hypo_generate_partitiondesc :
    list hypoTable -> hypoTable -> World -> Result PartitionDesc * World;
  hypo_ExpandChildRTE :
    list hypoTable -> PlannerInfo -> RangeTblEntry -> Index -> Relation ->
    PlanRowMark -> Pointer -> PartitionDesc -> World -> Result unit * World;
  hypo_BuildChildRTE :
    list hypoTable -> RangeTblEntry -> Oid -> Oid -> World -> Result unit * World
}.

Section Hypopg.
Context {World : Type} {E : Extern World}.

(** *** The saved handlers, by their names in the source *)

Definition prev_utility_hook (s : State World) := prev s ProcessUtility.
Definition prev_ExecutorEnd_hook (s : State World) := prev s ExecutorEnd.
Definition prev_get_relation_info_hook (s : State World) := prev s get_relation_info.
Definition prev_explain_get_index_name_hook (s : State World) :=
  prev s explain_get_index_name.
Definition prev_set_rel_pathlist_hook (s : State World) := prev s set_rel_pathlist.
Definition prev_RelationGetPartitionDesc_hook (s : State World) :=
  prev s RelationGetPartitionDesc.
Definition prev_RelationGetPartitionKey_hook (s : State World) :=
  prev s RelationGetPartitionKey.
Definition prev_skip_has_subclass_hook (s : State World) := prev s skip_has_subclass.
Definition prev_find_all_inheritors_hook (s : State World) :=
  prev s find_all_inheritors.
Definition prev_expand_child_rtentry_hook (s : State World) :=
  prev s expand_child_rtentry.
Definition prev_build_child_rtentry_hook (s : State World) :=
  prev s build_child_rtentry.

(** *** Installation and teardown *)

(** [prev_p = p_hook;] *)
Definition save_state (p : HookPoint) (s : State World) : State World :=
  set_prev (assign p (hook s p) (prev s)) s.

Definition save (p : HookPoint) : M World unit := modify (save_state p).

(** [p_hook = hypo_p;] *)
Definition install_state (p : HookPoint) (s : State World) : State World :=
  set_hook (assign p (Some (hypo_hook p)) (hook s)) s.

Definition install (p : HookPoint) : M World unit := modify (install_state p).

(** [p_hook = prev_p;] *)
Definition restore_state (p : HookPoint) (s : State World) : State World :=
  set_hook (assign p (prev s p) (hook s)) s.

Definition restore (p : HookPoint) : M World unit := modify (restore_state p).

Definition _PG_init : M World unit :=
  save ProcessUtility ;;
  install ProcessUtility ;;
  save ExecutorEnd ;;
  install ExecutorEnd ;;
  save get_relation_info ;;
  install get_relation_info ;;
  save explain_get_index_name ;;
  install explain_get_index_name ;;
  save set_rel_pathlist ;;
  install set_rel_pathlist ;;
  save RelationGetPartitionDesc ;;
  install RelationGetPartitionDesc ;;
  save RelationGetPartitionKey ;;
  install RelationGetPartitionKey ;;
  save skip_has_subclass ;;
  install skip_has_subclass ;;
  save find_all_inheritors ;;
  install find_all_inheritors ;;
  save expand_child_rtentry ;;
  install expand_child_rtentry ;;
  save build_child_rtentry ;;
  install build_child_rtentry ;;
  modify (set_isExplain false) ;;
  modify (set_hypoIndexes []) ;;
  ctx <- in_world (AllocSetContextCreate "HypoPG context") ;;
  modify (set_HypoMemoryContext (Some ctx)) ;;
  enabled <- in_world (DefineCustomBoolVariable
                         "hypopg.enabled" "Enable / Disable hypopg" true) ;;
  modify (set_hypo_is_enabled enabled).

Definition _PG_fini : M World unit :=
  restore ProcessUtility ;;
  restore ExecutorEnd ;;
  restore get_relation_info ;;
  restore explain_get_index_name ;;
  restore set_rel_pathlist ;;
  restore RelationGetPartitionDesc ;;
  restore RelationGetPartitionKey ;;
  restore skip_has_subclass ;;
  restore find_all_inheritors ;;
  restore expand_child_rtentry ;;
  restore build_child_rtentry.

(** *** Explain-mode gating *)

(** Sets up the [isExplain] flag for the hooks that follow, then hands the
    statement to the saved handler or to the host. *)
Definition hypo_utility_hook (stmt : UtilityStmt) (args : UtilityArgs)
  : M World unit :=
  modify (set_isExplain
            (query_or_expression_tree_walker stmt hypo_query_walker)) ;;
  saved <- gets prev_utility_hook ;;
  match saved with
  | Some f => call_ProcessUtility f stmt args
  | None => standard_ProcessUtility stmt args
  end.

(** Resets the [isExplain] flag after each query. *)
Definition hypo_executorEnd_hook (queryDesc : QueryDesc) : M World unit :=
  modify (set_isExplain false) ;;
  saved <- gets prev_ExecutorEnd_hook ;;
  match saved with
  | Some f => call_ExecutorEnd f queryDesc
  | None => standard_ExecutorEnd queryDesc
  end.

(** *** Injection hooks *)

(** The relation kinds that take hypothetical indexes: an ordinary table
    and, from 9.3 on, a materialized view. *)
Definition relkind_takes_indexes (relkind : ascii) : bool :=
  Ascii.eqb relkind RELKIND_RELATION
  || (if (90300 <=? PG_VERSION_NUM)%Z
      then Ascii.eqb relkind RELKIND_MATVIEW
      else false).

(** The body of the loop over [hypoIndexes]. *)
Definition inject_if_owned (root : PlannerInfo) (relationObjectId : Oid)
    (inhparent : bool) (rel : RelOptInfo) (relation : Relation)
    (entry : hypoIndex) : M World unit :=
  if N.eqb (relid entry) relationObjectId
  then in_world (hypo_injectHypotheticalIndex
                   root relationObjectId inhparent rel relation entry)
  else ret tt.

Definition hypo_get_relation_info_hook (root : PlannerInfo)
    (relationObjectId : Oid) (inhparent : bool) (rel : RelOptInfo)
  : M World unit :=
  enabled <- gets HYPO_ENABLED ;;
  (if enabled then
     relation <- in_world (heap_open relationObjectId AccessShareLock) ;;
     (if relkind_takes_indexes (rd_rel_relkind relation) then
        entries <- gets hypoIndexes ;;
        foreach entries
          (inject_if_owned root relationObjectId inhparent rel relation)
      else ret tt) ;;
     in_world (heap_close relation AccessShareLock) ;;
     tables <- gets hypoTables ;;
     if hypo_table_oid_is_hypothetical tables relationObjectId
     then in_world (hypo_injectHypotheticalPartitioning
                      tables root relationObjectId rel)
     else ret tt
   else ret tt) ;;
  saved <- gets prev_get_relation_info_hook ;;
  match saved with
  | Some f => call_get_relation_info f root relationObjectId inhparent rel
  | None => ret tt
  end.

Definition hypo_set_rel_pathlist_hook (root : PlannerInfo) (rel : RelOptInfo)
    (rti : Index) (rte : RangeTblEntry) : M World unit :=
  enabled <- gets HYPO_ENABLED ;;
  tables <- gets hypoTables ;;
  (if enabled
      && hypo_table_oid_is_hypothetical tables (rte_relid rte)
      && Ascii.eqb (rte_relkind rte) "r"%char
   then in_world (hypo_setPartitionPathlist tables root rel rti rte)
   else ret tt) ;;
  saved <- gets prev_set_rel_pathlist_hook ;;
  match saved with
  | Some f => call_set_rel_pathlist f root rel rti rte
  | None => ret tt
  end.

(** [hypo_find_table] leaves through an error or returns the entry. *)
Definition find_table (relid : Oid) : M World hypoTable :=
  fun s => (hypo_find_table (hypoTables s) relid, s).

Definition hypo_RelationGetPartitionDesc_hook (relid : Oid)
  : M World PartitionDesc :=
  enabled <- gets HYPO_ENABLED ;;
  tables <- gets hypoTables ;;
  if enabled && hypo_table_oid_is_hypothetical tables relid
  then
    table <- find_table relid ;;
    in_world (hypo_generate_partitiondesc tables table)
  else
    saved <- gets prev_RelationGetPartitionDesc_hook ;;
    match saved with
    | Some f => call_RelationGetPartitionDesc f relid
    | None => ret None
    end.

Definition hypo_RelationGetPartitionKey_hook (relid : Oid)
  : M World PartitionKey :=
  enabled <- gets HYPO_ENABLED ;;
  tables <- gets hypoTables ;;
  if enabled && hypo_table_oid_is_hypothetical tables relid
  then
    table <- find_table relid ;;
    ret (partkey table)
  else
    saved <- gets prev_RelationGetPartitionKey_hook ;;
    match saved with
    | Some f => call_RelationGetPartitionKey f relid
    | None => ret None
    end.

Definition hypo_skip_has_subclass_hook (parentOID : Oid) : M World bool :=
  enabled <- gets HYPO_ENABLED ;;
  tables <- gets hypoTables ;;
  if enabled && hypo_table_oid_is_hypothetical tables parentOID
  then ret true
  else
    saved <- gets prev_skip_has_subclass_hook ;;
    match saved with
    | Some f => call_skip_has_subclass f parentOID
    | None => ret false
    end.

Definition hypo_find_all_inheritors_hook (relid : Oid) : M World (list Oid) :=
  enabled <- gets HYPO_ENABLED ;;
  tables <- gets hypoTables ;;
  if enabled && hypo_table_oid_is_hypothetical tables relid
  then
    table <- find_table relid ;;
    let list := hypo_find_inheritance_children tables table in
    let list := relid :: list in
    ret list
  else
    saved <- gets prev_find_all_inheritors_hook ;;
    match saved with
    | Some f => call_find_all_inheritors f relid
    | None => ret []
    end.

Definition hypo_expand_child_rtentry_hook (root : PlannerInfo)
    (parentrte : RangeTblEntry) (parentRTindex : Index) (parentrel : Relation)
    (top_parentrc : PlanRowMark) (appinfos : Pointer) (partdesc : PartitionDesc)
  : M World unit :=
  enabled <- gets HYPO_ENABLED ;;
  tables <- gets hypoTables ;;
  (if enabled
      && hypo_table_oid_is_hypothetical tables (rd_id parentrel)
   then in_world (hypo_ExpandChildRTE tables root parentrte parentRTindex
                    parentrel top_parentrc appinfos partdesc)
   else ret tt) ;;
  saved <- gets prev_expand_child_rtentry_hook ;;
  match saved with
  | Some f => call_expand_child_rtentry f root parentrte parentRTindex
                parentrel top_parentrc appinfos partdesc
  | None => ret tt
  end.

Definition hypo_build_child_rtentry_hook (childrte : RangeTblEntry)
    (parentOID childOID : Oid) : M World unit :=
  enabled <- gets HYPO_ENABLED ;;
  tables <- gets hypoTables ;;
  (if enabled
      && hypo_table_oid_is_hypothetical tables (rte_relid childrte)
   then in_world (hypo_BuildChildRTE tables childrte parentOID childOID)
   else ret tt) ;;
  saved <- gets prev_build_child_rtentry_hook ;;
  match saved with
  | Some f => call_build_child_rtentry f childrte parentOID childOID
  | None => ret tt
  end.

(** *** Reset *)

(** Modelled from the spec: [hypo_index_reset] is defined in
    [hypopg_index.c]; it discards every hypothetical index of the
    registry. *)
Definition hypo_index_reset : M World unit :=
  modify (set_hypoIndexes []).

(** Modelled from the spec: [hypo_table_reset] is defined in
    [hypopg_table.c]; it discards every hypothetical table of the
    registry. *)
Definition hypo_table_reset : M World unit :=
  modify (set_hypoTables []).

(** Resets all stored entries; [PG_RETURN_VOID]. *)
Definition hypopg_reset : M World unit :=
  hypo_index_reset ;;
  hypo_table_reset ;;
  ret tt.
End Hypopg.

(** ** Vocabulary of the statements *)

(** An option list contains an "analyze" option. *)
Definition has_analyze_option (options : list DefElem) : Prop :=
  exists opt, In opt options /\ defname opt = "analyze".

Section Vocabulary.
Context {World : Type} {E : Extern World}.

(** The eleven pairs of assignments that open [_PG_init]. *)
Definition wrap_all : M World unit :=
  fold_right (fun p rest => save p ;; install p ;; rest) (ret tt) all_hook_points.

(** What follows them: the flag, the registry, the memory context and the
    setting. *)
Definition init_globals : M World unit :=
  modify (set_isExplain false) ;;
  modify (set_hypoIndexes []) ;;
  ctx <- in_world (AllocSetContextCreate "HypoPG context") ;;
  modify (set_HypoMemoryContext (Some ctx)) ;;
  enabled <- in_world (DefineCustomBoolVariable
                         "hypopg.enabled" "Enable / Disable hypopg" true) ;;
  modify (set_hypo_is_enabled enabled).

(** A computation that writes no hook variable, however it ends. *)
Definition keeps_tables {A : Type} (m : M World A) : Prop :=
  forall s, hook (final (m s)) = hook s /\ prev (final (m s)) = prev s.

(** A computation that does not write the [isExplain] flag, however it
    ends. *)
Definition keeps_isExplain {A : Type} (m : M World A) : Prop :=
  forall s, isExplain (final (m s)) = isExplain s.

(** A computation that works on the backend only: it ends, returning or
    raising, in the state it started from but for the backend. *)
Definition backend_only {A : Type} (m : M World A) : Prop :=
  forall s, exists w, final (m s) = set_world w s.

(** Delegation: the saved handler when there is one, otherwise what the
    host does by itself. *)
Definition next_handler {A : Type} (saved : option fnptr)
    (call : fnptr -> M World A) (otherwise : M World A) : M World A :=
  match saved with
  | Some f => call f
  | None => otherwise
  end.

Definition next_ExecutorEnd (saved : option fnptr) (queryDesc : QueryDesc)
  : M World unit :=
  next_handler saved (fun f => call_ExecutorEnd f queryDesc)
               (standard_ExecutorEnd queryDesc).

Definition next_ProcessUtility (saved : option fnptr) (stmt : UtilityStmt)
    (args : UtilityArgs) : M World unit :=
  next_handler saved (fun f => call_ProcessUtility f stmt args)
               (standard_ProcessUtility stmt args).
(** *** Falling through

    What each injection hook comes down to when it injects nothing: the
    saved handler, or the answer that leaves the host to itself (nothing,
    [NULL], false, [NIL]). *)

Definition fall_through_get_relation_info (root : PlannerInfo)
    (relationObjectId : Oid) (inhparent : bool) (rel : RelOptInfo)
  : M World unit :=
  saved <- gets prev_get_relation_info_hook ;;
  next_handler saved
    (fun f => call_get_relation_info f root relationObjectId inhparent rel)
    (ret tt).

Definition fall_through_set_rel_pathlist (root : PlannerInfo)
    (rel : RelOptInfo) (rti : Index) (rte : RangeTblEntry) : M World unit :=
  saved <- gets prev_set_rel_pathlist_hook ;;
  next_handler saved (fun f => call_set_rel_pathlist f root rel rti rte) (ret tt).

Definition fall_through_RelationGetPartitionDesc (relid : Oid)
  : M World PartitionDesc :=
  saved <- gets prev_RelationGetPartitionDesc_hook ;;
  next_handler saved (fun f => call_RelationGetPartitionDesc f relid) (ret None).

Definition fall_through_RelationGetPartitionKey (relid : Oid)
  : M World PartitionKey :=
  saved <- gets prev_RelationGetPartitionKey_hook ;;
  next_handler saved (fun f => call_RelationGetPartitionKey f relid) (ret None).

Definition fall_through_skip_has_subclass (parentOID : Oid) : M World bool :=
  saved <- gets prev_skip_has_subclass_hook ;;
  next_handler saved (fun f => call_skip_has_subclass f parentOID) (ret false).

Definition fall_through_find_all_inheritors (relid : Oid)
  : M World (list Oid) :=
  saved <- gets prev_find_all_inheritors_hook ;;
  next_handler saved (fun f => call_find_all_inheritors f relid) (ret []).

Definition fall_through_expand_child_rtentry (root : PlannerInfo)
    (parentrte : RangeTblEntry) (parentRTindex : Index) (parentrel : Relation)
    (top_parentrc : PlanRowMark) (appinfos : Pointer) (partdesc : PartitionDesc)
  : M World unit :=
  saved <- gets prev_expand_child_rtentry_hook ;;
  next_handler saved
    (fun f => call_expand_child_rtentry f root parentrte parentRTindex
                parentrel top_parentrc appinfos partdesc)
    (ret tt).

Definition fall_through_build_child_rtentry (childrte : RangeTblEntry)
    (parentOID childOID : Oid) : M World unit :=
  saved <- gets prev_build_child_rtentry_hook ;;
  next_handler saved
    (fun f => call_build_child_rtentry f childrte parentOID childOID)
    (ret tt).

(** *** Phases of the relation-info hook *)

(** The entry belongs to the relation. *)
Definition owned_by (relationObjectId : Oid) (entry : hypoIndex) : bool :=
  N.eqb (relid entry) relationObjectId.

(** The registry's entries for a relation, in registry order. *)
Definition matching_indexes (relationObjectId : Oid) (s : State World)
  : list hypoIndex :=
  filter (owned_by relationObjectId) (hypoIndexes s).

(** One call of [hypo_injectHypotheticalIndex] per entry of [entries], in
    order. *)
Definition inject_indexes (root : PlannerInfo) (relationObjectId : Oid)
    (inhparent : bool) (rel : RelOptInfo) (relation : Relation)
    (entries : list hypoIndex) : M World unit :=
  foreach entries
    (fun entry => in_world (hypo_injectHypotheticalIndex
                              root relationObjectId inhparent rel relation entry)).

(** What the hook does with the indexes of an opened relation: it depends
    on the relation's kind. *)
Definition index_phase (root : PlannerInfo) (relationObjectId : Oid)
    (inhparent : bool) (rel : RelOptInfo) (relation : Relation)
    (s : State World) : M World unit :=
  if relkind_takes_indexes (rd_rel_relkind relation)
  then inject_indexes root relationObjectId inhparent rel relation
         (matching_indexes relationObjectId s)
  else ret tt.

(** What the hook does for the partitioning of a relation: it depends on
    the registry of hypothetical tables. *)
Definition partitioning_phase (root : PlannerInfo) (relationObjectId : Oid)
    (rel : RelOptInfo) (s : State World) : M World unit :=
  if hypo_table_oid_is_hypothetical (hypoTables s) relationObjectId
  then in_world (hypo_injectHypotheticalPartitioning
                   (hypoTables s) root relationObjectId rel)
  else ret tt.
End Vocabulary.

(** ** A recording backend

    A concrete backend on which the hooks run by computation: its world is
    the list of the calls that reached it, oldest first. *)
Module Recording.
Local Open Scope N_scope.

Inductive Event :=
| EvHeapOpen (relid : Oid)
| EvHeapClose (relid : Oid)
| EvAllocSetContextCreate (name : string)
| EvDefineCustomBoolVariable (name : string)
| EvInjectIndex (relationObjectId : Oid) (entry : hypoIndex)
| EvInjectPartitioning (relationObjectId : Oid)
| EvSetPartitionPathlist (relid : Oid)
| EvGeneratePartitionDesc (table : Oid)
| EvExpandChildRTE (parent : Oid)
| EvBuildChildRTE (parentOID childOID : Oid)
| EvStandard (p : HookPoint)
| EvForeign (p : HookPoint) (addr : N).

Definition World := list Event.

Definition record {A : Type} (ev : Event) (a : A) (w : World)
  : Result A * World :=
  (Ok a, (w ++ [ev])%list).

(** Relation 16385 is a view, 16386 a materialized view, 16387 a foreign
    table, 0 does not exist, every other one is an ordinary table. *)
Definition relkind_of (relid : Oid) : ascii :=
  if N.eqb relid 16385 then "v"%char
  else if N.eqb relid 16386 then "m"%char
  else if N.eqb relid 16387 then "f"%char
  else "r"%char.

(** The handler of another extension: the one at address 666 raises, any
    other one is recorded and answers [a]. *)
Definition foreign_call {A : Type} (p : HookPoint) (f : fnptr) (a : A)
  : M World A :=
  match f with
  | foreign addr =>
      if N.eqb addr 666
      then fun s => (Raise "error raised by the chained handler", s)
      else in_world (record (EvForeign p addr) a)
  | hypo_hook _ => fun s => (Raise "handler chained onto itself", s)
  end.

Definition table_has_oid (relid : Oid) (t : hypoTable) : bool :=
  N.eqb (table_oid t) relid.

#[export] Instance backend : Extern World := {|
  PG_VERSION_NUM := 100004%Z;
  heap_open := fun relid _ w =>
    if N.eqb relid 0 then (Raise "could not open relation", w)
    else record (EvHeapOpen relid) (mkRelation relid (relkind_of relid)) w;
  heap_close := fun relation _ => record (EvHeapClose (rd_id relation)) tt;
  AllocSetContextCreate := fun name => record (EvAllocSetContextCreate name) 1%N;
  DefineCustomBoolVariable := fun name _ boot =>
    record (EvDefineCustomBoolVariable name) boot;
  standard_ProcessUtility := fun _ args =>
    if String.eqb (queryString args) "EXPLAIN SELECT 1/0"
    then fun s => (Raise "division by zero", s)
    else in_world (record (EvStandard ProcessUtility) tt);
  standard_ExecutorEnd := fun queryDesc =>
    if N.eqb queryDesc 0
    then fun s => (Raise "no query descriptor", s)
    else in_world (record (EvStandard ExecutorEnd) tt);
  call_ProcessUtility := fun f _ _ => foreign_call ProcessUtility f tt;
  call_ExecutorEnd := fun f _ => foreign_call ExecutorEnd f tt;
  call_get_relation_info := fun f _ _ _ _ =>
    foreign_call get_relation_info f tt;
  call_set_rel_pathlist := fun f _ _ _ _ => foreign_call set_rel_pathlist f tt;
  call_RelationGetPartitionDesc := fun f _ =>
    foreign_call RelationGetPartitionDesc f (Some 7%N);
  call_RelationGetPartitionKey := fun f _ =>
    foreign_call RelationGetPartitionKey f (Some 8%N);
  call_skip_has_subclass := fun f relid =>
    foreign_call skip_has_subclass f (N.odd relid);
  call_find_all_inheritors := fun f relid =>
    foreign_call find_all_inheritors f [relid; (relid + 1)%N];
  call_expand_child_rtentry := fun f _ _ _ _ _ _ _ =>
    foreign_call expand_child_rtentry f tt;
  call_build_child_rtentry := fun f _ _ _ =>
    foreign_call build_child_rtentry f tt;
  hypo_table_oid_is_hypothetical := fun tables relid =>
    existsb (table_has_oid relid) tables;
  hypo_find_table := fun tables relid =>
    match find (table_has_oid relid) tables with
    | Some t => Ok t
    | None => Raise "hypopg: could not find the table"
    end;
  hypo_find_inheritance_children := fun tables t =>
    map table_oid
        (filter (fun c => N.eqb (table_oid c / 100) (table_oid t)) tables);
  hypo_injectHypotheticalIndex := fun _ relationObjectId _ _ _ entry =>
    record (EvInjectIndex relationObjectId entry) tt;
  hypo_injectHypotheticalPartitioning := fun _ _ relationObjectId _ =>
    record (EvInjectPartitioning relationObjectId) tt;
  hypo_setPartitionPathlist := fun _ _ _ _ rte =>
    record (EvSetPartitionPathlist (rte_relid rte)) tt;
  hypo_generate_partitiondesc := fun _ t =>
    record (EvGeneratePartitionDesc (table_oid t)) (Some (table_oid t));
  hypo_ExpandChildRTE := fun _ _ _ _ parentrel _ _ _ =>
    record (EvExpandChildRTE (rd_id parentrel)) tt;
  hypo_BuildChildRTE := fun _ _ parentOID childOID =>
    record (EvBuildChildRTE parentOID childOID) tt
|}.

(** No handler installed anywhere. *)
Definition no_hooks : HookTable := fun _ => None.

(** Another extension sits on every point, at the address given. *)
Definition chained (addr : N) : HookTable := fun _ => Some (foreign addr).

(** Three hypothetical indexes, two of them on table 16384, and table
    16390 hypothetically partitioned into 1639001 and 1639002. *)
Definition registry_indexes : list hypoIndex :=
  [mkHypoIndex 90001 16384; mkHypoIndex 90002 16400; mkHypoIndex 90003 16384].

Definition registry_tables : list hypoTable :=
  [mkHypoTable 16390 (Some 5%N); mkHypoTable 1639001 None;
   mkHypoTable 1639002 None; mkHypoTable 16387 (Some 6%N)].

(** A backend inside a plan-only EXPLAIN, and one outside. *)
Definition explaining (saved : HookTable) : State World :=
  mkState true true (Some 1%N) registry_indexes registry_tables
          no_hooks saved [].

Definition idle (saved : HookTable) : State World :=
  mkState false true (Some 1%N) registry_indexes registry_tables
          no_hooks saved [].

Definition disabled (saved : HookTable) : State World :=
  mkState true false (Some 1%N) registry_indexes registry_tables
          no_hooks saved [].

Definition some_args (query : string) : UtilityArgs :=
  mkUtilityArgs query 0 0 0 true 0 0.

(** A plan-only EXPLAIN, as PostgreSQL 10 hands it to the utility hook. *)
Definition explain_stmt : UtilityStmt :=
  Pstmt (Some (mkPlannedStmt (Some (ExplainStmt [mkDefElem "verbose" None])))).

End Recording.

(** ** Allocation of identifiers *)

(** The identifier of [pg_class] itself ([catalog/pg_class.h]). *)
Definition RelationRelationId : Oid := 1259%N.

(** What [hypo_getNewOid] reads and calls besides [heap_open] and
    [heap_close]: the tablespace and the persistence of an open relation
    ([relation->rd_rel->reltablespace], [relation->rd_rel->relpersistence]),
    read from the backend, and the host's [GetNewRelFileNode]. *)
Class ExternOid (World : Type) := {
  rd_rel_reltablespace : Relation -> World -> Oid;
  rd_rel_relpersistence : Relation -> World -> ascii;
  GetNewRelFileNode : Oid -> Relation -> ascii -> World -> Result Oid * World
}.

Section Allocation.
Context {World : Type} {E : Extern World} {O : ExternOid World}.

(** Wrapper around [GetNewRelFileNode]: returns a new identifier for a
    hypothetical index on the relation [relid]. *)
Definition hypo_getNewOid (relid : Oid) : M World Oid :=
  relation <- in_world (heap_open relid AccessShareLock) ;;
  reltablespace <- gets (fun s => rd_rel_reltablespace relation (world s)) ;;
  relpersistence <- gets (fun s => rd_rel_relpersistence relation (world s)) ;;
  in_world (heap_close relation AccessShareLock) ;;
  pg_class <- in_world (heap_open RelationRelationId RowExclusiveLock) ;;
  newoid <- in_world (GetNewRelFileNode reltablespace pg_class relpersistence) ;;
  in_world (heap_close pg_class RowExclusiveLock) ;;
  ret newoid.
End Allocation.

(** ** Further vocabulary *)

(** Two option lists name the same options, whatever their order, their
    repetitions and their values. *)
Definition same_option_names (l1 l2 : list DefElem) : Prop :=
  forall name, In name (map defname l1) <-> In name (map defname l2).

Section FurtherVocabulary.
Context {World : Type} {E : Extern World}.

(** From the state [s], each of the eight injection hooks is its
    fall-through, whatever it is called with. *)
Definition all_hooks_fall_through (s : State World) : Prop :=
  (forall root relationObjectId inhparent rel,
     hypo_get_relation_info_hook root relationObjectId inhparent rel s
     = fall_through_get_relation_info root relationObjectId inhparent rel s)
  /\ (forall root rel rti rte,
        hypo_set_rel_pathlist_hook root rel rti rte s
        = fall_through_set_rel_pathlist root rel rti rte s)
  /\ (forall relid,
        hypo_RelationGetPartitionDesc_hook relid s
        = fall_through_RelationGetPartitionDesc relid s)
  /\ (forall relid,
        hypo_RelationGetPartitionKey_hook relid s
        = fall_through_RelationGetPartitionKey relid s)
  /\ (forall parentOID,
        hypo_skip_has_subclass_hook parentOID s
        = fall_through_skip_has_subclass parentOID s)
  /\ (forall relid,
        hypo_find_all_inheritors_hook relid s
        = fall_through_find_all_inheritors relid s)
  /\ (forall root parentrte parentRTindex parentrel top_parentrc appinfos
             partdesc,
        hypo_expand_child_rtentry_hook root parentrte parentRTindex parentrel
          top_parentrc appinfos partdesc s
        = fall_through_expand_child_rtentry root parentrte parentRTindex
            parentrel top_parentrc appinfos partdesc s)
  /\ (forall childrte parentOID childOID,
        hypo_build_child_rtentry_hook childrte parentOID childOID s
        = fall_through_build_child_rtentry childrte parentOID childOID s).

(** Another extension, loaded later, puts its handlers in the hook
    variables. *)
Definition overlay (t : HookTable) (s : State World) : State World :=
  set_hook t s.
End FurtherVocabulary.

(** ** A backend whose injection engine fails

    The recording backend, but for one registry entry, one table and one
    parent whose injection raises. *)
Module Faulty.
Import Recording.
Local Open Scope N_scope.

Definition backend (bad : Oid) : Extern World := {|
  PG_VERSION_NUM := PG_VERSION_NUM (Extern := Recording.backend);
  heap_open := heap_open (Extern := Recording.backend);
  heap_close := heap_close (Extern := Recording.backend);
  AllocSetContextCreate := AllocSetContextCreate (Extern := Recording.backend);
  DefineCustomBoolVariable :=
    DefineCustomBoolVariable (Extern := Recording.backend);
  standard_ProcessUtility := standard_ProcessUtility (Extern := Recording.backend);
  standard_ExecutorEnd := standard_ExecutorEnd (Extern := Recording.backend);
  call_ProcessUtility := call_ProcessUtility (Extern := Recording.backend);
  call_ExecutorEnd := call_ExecutorEnd (Extern := Recording.backend);
  call_get_relation_info := call_get_relation_info (Extern := Recording.backend);
  call_set_rel_pathlist := call_set_rel_pathlist (Extern := Recording.backend);
  call_RelationGetPartitionDesc :=
    call_RelationGetPartitionDesc (Extern := Recording.backend);
  call_RelationGetPartitionKey :=
    call_RelationGetPartitionKey (Extern := Recording.backend);
  call_skip_has_subclass := call_skip_has_subclass (Extern := Recording.backend);
  call_find_all_inheritors :=
    call_find_all_inheritors (Extern := Recording.backend);
  call_expand_child_rtentry :=
    call_expand_child_rtentry (Extern := Recording.backend);
  call_build_child_rtentry :=
    call_build_child_rtentry (Extern := Recording.backend);
  hypo_table_oid_is_hypothetical :=
    hypo_table_oid_is_hypothetical (Extern := Recording.backend);
  hypo_find_table := hypo_find_table (Extern := Recording.backend);
  hypo_find_inheritance_children :=
    hypo_find_inheritance_children (Extern := Recording.backend);
  hypo_injectHypotheticalIndex := fun root relationObjectId inhparent rel relation entry w =>
    if N.eqb (oid entry) bad
    then (Raise "hypopg: cannot build the index", w)
    else hypo_injectHypotheticalIndex (Extern := Recording.backend)
           root relationObjectId inhparent rel relation entry w;
  hypo_injectHypotheticalPartitioning :=
    hypo_injectHypotheticalPartitioning (Extern := Recording.backend);
  hypo_setPartitionPathlist :=
    hypo_setPartitionPathlist (Extern := Recording.backend);
  hypo_generate_partitiondesc :=
    hypo_generate_partitiondesc (Extern := Recording.backend);
  hypo_ExpandChildRTE := fun tables root parentrte parentRTindex parentrel
                             top_parentrc appinfos partdesc w =>
    if N.eqb (rd_id parentrel) bad
    then (Raise "hypopg: cannot expand the children", w)
    else hypo_ExpandChildRTE (Extern := Recording.backend) tables root parentrte
           parentRTindex parentrel top_parentrc appinfos partdesc w;
  hypo_BuildChildRTE := hypo_BuildChildRTE (Extern := Recording.backend)
|}.

End Faulty.

(** ** A backend that keeps a ledger of locks

    Its world is the list of the locks held, newest first, and the next
    identifier to hand out. Relation 0 does not exist; a relation in
    tablespace 9999 gets no identifier. *)
Module Ledger.
Local Open Scope N_scope.

Definition World := (list (Oid * LOCKMODE) * N)%type.

Definition same_lock (a b : Oid * LOCKMODE) : bool :=
  N.eqb (fst a) (fst b)
  && match snd a, snd b with
     | AccessShareLock, AccessShareLock => true
     | RowExclusiveLock, RowExclusiveLock => true
     | _, _ => false
     end.

(** Releases the newest lock equal to [l]. *)
Fixpoint release (l : Oid * LOCKMODE) (locks : list (Oid * LOCKMODE))
  : list (Oid * LOCKMODE) :=
  match locks with
  | [] => []
  | l' :: rest => if same_lock l l' then rest else l' :: release l rest
  end.

Definition held (w : World) : list (Oid * LOCKMODE) := fst w.

Definition nothing {A : Type} (a : A) (w : World) : Result A * World := (Ok a, w).

Definition backend : Extern World := {|
  PG_VERSION_NUM := 100004%Z;
  heap_open := fun relid mode w =>
    if N.eqb relid 0 then (Raise "could not open relation", w)
    else (Ok (mkRelation relid "r"%char), ((relid, mode) :: fst w, snd w));
  heap_close := fun relation mode w =>
    (Ok tt, (release (rd_id relation, mode) (fst w), snd w));
  AllocSetContextCreate := fun _ => nothing 1;
  DefineCustomBoolVariable := fun _ _ boot => nothing boot;
  standard_ProcessUtility := fun _ _ => ret tt;
  standard_ExecutorEnd := fun _ => ret tt;
  call_ProcessUtility := fun _ _ _ => ret tt;
  call_ExecutorEnd := fun _ _ => ret tt;
  call_get_relation_info := fun _ _ _ _ _ => ret tt;
  call_set_rel_pathlist := fun _ _ _ _ _ => ret tt;
  call_RelationGetPartitionDesc := fun _ _ => ret None;
  call_RelationGetPartitionKey := fun _ _ => ret None;
  call_skip_has_subclass := fun _ _ => ret false;
  call_find_all_inheritors := fun _ _ => ret [];
  call_expand_child_rtentry := fun _ _ _ _ _ _ _ _ => ret tt;
  call_build_child_rtentry := fun _ _ _ _ => ret tt;
  hypo_table_oid_is_hypothetical := fun _ _ => false;
  hypo_find_table := fun _ _ => Raise "hypopg: could not find the table";
  hypo_find_inheritance_children := fun _ _ => [];
  hypo_injectHypotheticalIndex := fun _ _ _ _ _ _ => nothing tt;
  hypo_injectHypotheticalPartitioning := fun _ _ _ _ => nothing tt;
  hypo_setPartitionPathlist := fun _ _ _ _ _ => nothing tt;
  hypo_generate_partitiondesc := fun _ _ => nothing None;
  hypo_ExpandChildRTE := fun _ _ _ _ _ _ _ _ => nothing tt;
  hypo_BuildChildRTE := fun _ _ _ _ => nothing tt
|}.

(** Relation 777 lives in tablespace 9999, every other one in 1663. *)
Definition catalog : ExternOid World := {|
  rd_rel_reltablespace := fun relation _ =>
    if N.eqb (rd_id relation) 777 then 9999 else 1663;
  rd_rel_relpersistence := fun _ _ => "p"%char;
  GetNewRelFileNode := fun reltablespace _ _ w =>
    if N.eqb reltablespace 9999
    then (Raise "no identifier left in the tablespace", w)
    else (Ok (snd w), (fst w, snd w + 1))
|}.

(** A session that already holds a lock on relation 16384. *)
Definition session : State World :=
  mkState false true (Some 1) [] [] (fun _ => None) (fun _ => None)
          ([(16384, AccessShareLock)], 20000).

End Ledger.

(** * Properties *)

(** ** The explain-mode detector *)

Lemma explain_options_walker_false (options : list DefElem) :
  explain_options_walker options = false <-> has_analyze_option options.
Proof.
  unfold has_analyze_option.
  induction options as [| opt rest IH]; simpl.
  - split; [discriminate | intros (o & [] & _)].
  - destruct (String.eqb_spec (defname opt) "analyze") as [Heq | Hne].
    + split; [intros _; exists opt; auto | reflexivity].
    + rewrite IH. split.
      * intros (o & Hin & Hname). exists o. auto.
      * intros (o & [-> | Hin] & Hname); [contradiction | exists o; auto].
Qed.

Lemma explain_options_walker_true (options : list DefElem) :
  explain_options_walker options = true <-> ~ has_analyze_option options.
Proof.
  rewrite <- explain_options_walker_false.
  destruct (explain_options_walker options); intuition congruence.
Qed.

Lemma hypo_query_walker_node (stmt : UtilityStmt) :
  hypo_query_walker stmt =
  match statement_node stmt with
  | None => false
  | Some parsetree => explain_node_walker parsetree
  end.
Proof.
  destruct stmt as [[pstmt |] | [parsetree |]]; reflexivity.
Qed.

(** C3. The detector answers false for an absent statement, false for a
    statement that is not an EXPLAIN, false for an EXPLAIN whose option list
    contains an option named "analyze", and true for every other EXPLAIN. *)
Theorem hypo_query_walker_spec (stmt : UtilityStmt) :
  (statement_node stmt = None -> hypo_query_walker stmt = false)
  /\ (forall tag, statement_node stmt = Some (OtherNode tag) ->
        hypo_query_walker stmt = false)
  /\ (forall options, statement_node stmt = Some (ExplainStmt options) ->
        has_analyze_option options -> hypo_query_walker stmt = false)
  /\ (forall options, statement_node stmt = Some (ExplainStmt options) ->
        ~ has_analyze_option options -> hypo_query_walker stmt = true).
Proof.
  rewrite hypo_query_walker_node.
  destruct (statement_node stmt) as [[options | tag] |]; simpl;
    repeat split; try discriminate.
  - intros o [= <-]. apply explain_options_walker_false.
  - intros o [= <-]. apply explain_options_walker_true.
Qed.

(** ** Sequencing *)

Section Sequencing.
Context {World : Type}.

Lemma bind_modify {B : Type} (f : State World -> State World)
    (k : unit -> M World B) (s : State World) :
  bind (modify f) k s = k tt (f s).
Proof. reflexivity. Qed.

Lemma bind_gets {A B : Type} (f : State World -> A) (k : A -> M World B)
    (s : State World) :
  (x <- gets f ;; k x) s = k (f s) s.
Proof. reflexivity. Qed.

Lemma bind_ret {A B : Type} (a : A) (k : A -> M World B) (s : State World) :
  (x <- ret a ;; k x) s = k a s.
Proof. reflexivity. Qed.

Lemma bind_returns {A B : Type} (m : M World A) (k : A -> M World B)
    (s s' : State World) (a : A) :
  m s = (Ok a, s') -> (x <- m ;; k x) s = k a s'.
Proof. intros Hm. unfold bind. now rewrite Hm. Qed.

Lemma bind_raises {A B : Type} (m : M World A) (k : A -> M World B)
    (s s' : State World) (msg : string) :
  m s = (Raise msg, s') -> (x <- m ;; k x) s = (Raise msg, s').
Proof. intros Hm. unfold bind. now rewrite Hm. Qed.

Lemma in_world_returns {A : Type} (f : World -> Result A * World)
    (s : State World) (a : A) (w : World) :
  f (world s) = (Ok a, w) -> in_world f s = (Ok a, set_world w s).
Proof. intros Hf. unfold in_world. now rewrite Hf. Qed.

(** A call on the backend leaves the globals of the extension and the
    hook variables alone, returning or raising. *)
Lemma in_world_frame {A : Type} (f : World -> Result A * World)
    (s : State World) :
  let s' := final (in_world f s) in
  isExplain s' = isExplain s /\ hypo_is_enabled s' = hypo_is_enabled s
  /\ hypoIndexes s' = hypoIndexes s /\ hypoTables s' = hypoTables s
  /\ hook s' = hook s /\ prev s' = prev s.
Proof.
  unfold in_world, final. destruct (f (world s)) as [r w]. simpl. tauto.
Qed.
End Sequencing.

(** Runs the reads of globals a computation starts with. *)
Ltac read_globals := repeat (rewrite bind_gets; cbv beta).

(** ** Installation and teardown *)

Section Installation.
Context {World : Type} {E : Extern World}.

Lemma assign_same (p : HookPoint) (f : option fnptr) (t : HookTable) :
  assign p f t p = f.
Proof. unfold assign. destruct (HookPoint_eq_dec p p); congruence. Qed.

Lemma assign_other (p q : HookPoint) (f : option fnptr) (t : HookTable) :
  p <> q -> assign p f t q = t q.
Proof. intros Hne. unfold assign. destruct (HookPoint_eq_dec p q); congruence. Qed.

Lemma wrap_all_returns (s : State World) : fst (wrap_all s) = Ok tt.
Proof. reflexivity. Qed.

Lemma wrap_all_tables (s : State World) (p : HookPoint) :
  prev (final (wrap_all s)) p = hook s p
  /\ hook (final (wrap_all s)) p = Some (hypo_hook p).
Proof. destruct p; split; reflexivity. Qed.

Lemma PG_init_split (s : State World) :
  _PG_init s = init_globals (final (wrap_all s)).
Proof.
  unfold _PG_init, wrap_all, all_hook_points, fold_right, save, install.
  repeat (rewrite bind_modify; cbv beta).
  unfold init_globals.
  repeat (rewrite bind_modify; cbv beta).
  reflexivity.
Qed.

Lemma keeps_tables_bind {A B : Type} (m : M World A) (k : A -> M World B) :
  keeps_tables m -> (forall a, keeps_tables (k a)) -> keeps_tables (bind m k).
Proof.
  intros Hm Hk s. unfold bind. specialize (Hm s).
  destruct (m s) as [[a | msg] s']; simpl in *; [| exact Hm].
  destruct (Hk a s') as [Hh Hp]. split; [rewrite Hh | rewrite Hp]; tauto.
Qed.

Lemma keeps_tables_in_world {A : Type} (f : World -> Result A * World) :
  keeps_tables (in_world f).
Proof. intros s. pose proof (in_world_frame f s) as H. simpl in H. tauto. Qed.

Lemma keeps_tables_modify (f : State World -> State World) :
  (forall s, hook (f s) = hook s /\ prev (f s) = prev s) ->
  keeps_tables (modify f).
Proof. intros Hf s. apply Hf. Qed.

Lemma init_globals_tables : keeps_tables init_globals.
Proof.
  unfold init_globals.
  repeat first
    [ apply keeps_tables_bind; [| intros ?]
    | apply keeps_tables_in_world
    | apply keeps_tables_modify; intros ?; split; reflexivity ].
Qed.

Lemma PG_init_tables (s : State World) :
  hook (final (_PG_init s)) = hook (final (wrap_all s))
  /\ prev (final (_PG_init s)) = prev (final (wrap_all s)).
Proof. rewrite PG_init_split. apply init_globals_tables. Qed.

Lemma PG_fini_restores (s : State World) (p : HookPoint) :
  fst (_PG_fini s) = Ok tt /\ hook (final (_PG_fini s)) p = prev s p.
Proof. destruct p; split; reflexivity. Qed.

(** C8. [_PG_init] saves the handler each of the eleven extensibility
    points holds and then puts its own in place; [_PG_fini] puts every
    saved handler back, so that [_PG_init] followed by [_PG_fini] leaves
    each point with the handler it held before. *)
Theorem PG_init_PG_fini_round_trip (s : State World) (p : HookPoint) :
  let installed := final (_PG_init s) in
  let removed := final (_PG_fini installed) in
  In p all_hook_points
  /\ List.length all_hook_points = 11
  /\ prev installed p = hook s p
  /\ hook installed p = Some (hypo_hook p)
  /\ hook removed p = hook s p.
Proof.
  intros installed removed.
  destruct (PG_init_tables s) as [Hhook Hprev].
  destruct (wrap_all_tables s p) as [Hsaved Hown].
  split; [destruct p; simpl; tauto |].
  split; [reflexivity |].
  subst installed removed.
  destruct (PG_fini_restores (final (_PG_init s)) p) as [_ Hback].
  rewrite Hback, Hprev, Hhook, Hsaved, Hown. auto.
Qed.
End Installation.

(** ** Reset *)

Section Reset.
Context {World : Type} {E : Extern World}.

Lemma hypopg_reset_state (s : State World) :
  hypopg_reset s = (Ok tt, set_hypoTables [] (set_hypoIndexes [] s)).
Proof. reflexivity. Qed.

(** C7. [hypopg_reset] discards every hypothetical index and every
    hypothetical table, returns no value and raises nothing; run again on
    the state it leaves, it leaves that state, whatever the registry held
    before. *)
Theorem hypopg_reset_idempotent (s : State World) :
  let once := hypopg_reset s in
  let twice := hypopg_reset (final once) in
  fst once = Ok tt
  /\ hypoIndexes (final once) = []
  /\ hypoTables (final once) = []
  /\ fst twice = Ok tt
  /\ final twice = final once.
Proof.
  intros once twice. subst once twice.
  rewrite !hypopg_reset_state. simpl.
  repeat split.
Qed.
End Reset.

(** ** The explain-mode flag *)

Section ExplainFlag.
Context {World : Type} {E : Extern World}.

Lemma hypo_executorEnd_hook_steps (queryDesc : QueryDesc) (s : State World) :
  hypo_executorEnd_hook queryDesc s =
  next_ExecutorEnd (prev_ExecutorEnd_hook s) queryDesc (set_isExplain false s).
Proof.
  unfold hypo_executorEnd_hook, next_ExecutorEnd, next_handler.
  rewrite bind_modify, bind_gets. reflexivity.
Qed.

Lemma hypo_utility_hook_steps (stmt : UtilityStmt) (args : UtilityArgs)
    (s : State World) :
  hypo_utility_hook stmt args s =
  next_ProcessUtility (prev_utility_hook s) stmt args
    (set_isExplain (hypo_query_walker stmt) s).
Proof.
  unfold hypo_utility_hook, next_ProcessUtility, next_handler.
  rewrite bind_modify, bind_gets. reflexivity.
Qed.

(** The utility hook has no reset of its own: when what it hands the
    statement to does not write the flag, the flag stays as the detector
    set it, whether the statement returned or raised. *)
Lemma hypo_utility_hook_leaves_flag (stmt : UtilityStmt) (args : UtilityArgs)
    (s : State World) :
  keeps_isExplain (next_ProcessUtility (prev_utility_hook s) stmt args) ->
  isExplain (final (hypo_utility_hook stmt args s)) = hypo_query_walker stmt.
Proof.
  intros Hkeeps. rewrite hypo_utility_hook_steps, Hkeeps. reflexivity.
Qed.

(** C9. The execution-completion hook clears the flag first and delegates
    second: from every state, running the hook is running the saved
    handler, or the host's default when none is saved, from that state with
    the flag already false. So when what it delegates to does not write the
    flag itself, the flag reads false once the hook is over, and in
    particular in the state an error raised by the delegate leaves
    behind. *)
Theorem hypo_executorEnd_hook_clears_before_delegating
    (queryDesc : QueryDesc) (s : State World) :
  hypo_executorEnd_hook queryDesc s
  = next_ExecutorEnd (prev_ExecutorEnd_hook s) queryDesc (set_isExplain false s)
  /\ isExplain (set_isExplain false s) = false
  /\ (keeps_isExplain (next_ExecutorEnd (prev_ExecutorEnd_hook s) queryDesc) ->
       isExplain (final (hypo_executorEnd_hook queryDesc s)) = false
       /\ (forall msg s',
             hypo_executorEnd_hook queryDesc s = (Raise msg, s') ->
             isExplain s' = false)).
Proof.
  pose proof (hypo_executorEnd_hook_steps queryDesc s) as Hsteps.
  split; [exact Hsteps |]. split; [reflexivity |].
  intros Hnext.
  assert (Hover : isExplain (final (hypo_executorEnd_hook queryDesc s)) = false)
    by (rewrite Hsteps, Hnext; reflexivity).
  split; [exact Hover |].
  intros msg s' Hraise. now rewrite Hraise in Hover.
Qed.
End ExplainFlag.

(** ** Computations on the backend only *)

Section BackendOnly.
Context {World : Type} {E : Extern World}.

Lemma bind_assoc {A B C : Type} (m : M World A) (k : A -> M World B)
    (h : B -> M World C) (s : State World) :
  bind (bind m k) h s = bind m (fun a => bind (k a) h) s.
Proof. unfold bind. destruct (m s) as [[a | msg] s']; reflexivity. Qed.

Lemma backend_only_ret {A : Type} (a : A) : backend_only (World := World) (ret a).
Proof. intros s. exists (world s). now destruct s. Qed.

Lemma backend_only_in_world {A : Type} (f : World -> Result A * World) :
  backend_only (in_world f).
Proof.
  intros s. unfold in_world. destruct (f (world s)) as [r w].
  exists w. reflexivity.
Qed.

Lemma backend_only_bind {A B : Type} (m : M World A) (k : A -> M World B) :
  backend_only m -> (forall a, backend_only (k a)) -> backend_only (bind m k).
Proof.
  intros Hm Hk s. unfold bind. destruct (Hm s) as [w Hw].
  destruct (m s) as [[a | msg] s']; simpl in Hw; subst s'.
  - destruct (Hk a (set_world w s)) as [w' Hw']. exists w'. now rewrite Hw'.
  - exists w. reflexivity.
Qed.

Lemma backend_only_foreach {A : Type} (l : list A) (body : A -> M World unit) :
  (forall x, backend_only (body x)) -> backend_only (foreach l body).
Proof.
  intros Hbody. induction l as [| x l IH]; simpl.
  - apply backend_only_ret.
  - apply backend_only_bind; [apply Hbody | intros _; exact IH].
Qed.

Lemma backend_only_index_phase (root : PlannerInfo) (relationObjectId : Oid)
    (inhparent : bool) (rel : RelOptInfo) (relation : Relation)
    (s : State World) :
  backend_only (index_phase root relationObjectId inhparent rel relation s).
Proof.
  unfold index_phase, inject_indexes.
  destruct (relkind_takes_indexes _).
  - apply backend_only_foreach. intros entry. apply backend_only_in_world.
  - apply backend_only_ret.
Qed.

(** After a computation on the backend only, what follows starts from the
    same globals: two continuations that agree there can be exchanged. *)
Lemma bind_backend_only {A B : Type} (m m' : M World A)
    (k k' : A -> M World B) (s : State World) :
  m s = m' s -> backend_only m' ->
  (forall a w, k a (set_world w s) = k' a (set_world w s)) ->
  bind m k s = bind m' k' s.
Proof.
  intros Hm Honly Hk. unfold bind. rewrite Hm.
  destruct (Honly s) as [w Hw].
  destruct (m' s) as [[a | msg] s']; simpl in Hw; subst s'; [apply Hk | reflexivity].
Qed.
End BackendOnly.

(** ** The relation-info hook inside the simulation window *)

Section RelationInfo.
Context {World : Type} {E : Extern World}.

Variables (root : PlannerInfo) (relationObjectId : Oid) (inhparent : bool)
          (rel : RelOptInfo).

(** The loop with its test is the loop over the entries that pass it. *)
Lemma foreach_inject_if_owned (relation : Relation) (l : list hypoIndex)
    (s : State World) :
  foreach l (inject_if_owned root relationObjectId inhparent rel relation) s =
  inject_indexes root relationObjectId inhparent rel relation
    (filter (owned_by relationObjectId) l) s.
Proof.
  revert s. induction l as [| entry l IH]; intros s; [reflexivity |].
  simpl. unfold inject_if_owned at 1, owned_by at 1.
  destruct (N.eqb (relid entry) relationObjectId).
  - unfold inject_indexes. simpl. unfold bind.
    destruct (in_world _ s) as [[[] | msg] s']; [apply IH | reflexivity].
  - apply IH.
Qed.

Lemma matching_indexes_spec (s : State World) (entry : hypoIndex) :
  In entry (matching_indexes relationObjectId s) <->
  In entry (hypoIndexes s) /\ relid entry = relationObjectId.
Proof.
  unfold matching_indexes, owned_by.
  rewrite filter_In, N.eqb_eq. reflexivity.
Qed.

Lemma relkind_takes_indexes_spec (relkind : ascii) :
  relkind_takes_indexes relkind = true <->
  relkind = RELKIND_RELATION
  \/ ((90300 <= PG_VERSION_NUM)%Z /\ relkind = RELKIND_MATVIEW).
Proof.
  unfold relkind_takes_indexes.
  rewrite orb_true_iff, Ascii.eqb_eq.
  destruct (Z.leb_spec 90300 PG_VERSION_NUM) as [Hle | Hlt].
  - rewrite Ascii.eqb_eq. tauto.
  - split; [intros [H | H]; [auto | discriminate] | intros [H | [H _]]; [auto | lia]].
Qed.

(** Inside the window, once the relation is open, the hook is four phases
    in a row: indexes, closing, partitioning, delegation. *)
Lemma hypo_get_relation_info_hook_phases (s : State World)
    (relation : Relation) (w : World) :
  HYPO_ENABLED s = true ->
  heap_open relationObjectId AccessShareLock (world s) = (Ok relation, w) ->
  hypo_get_relation_info_hook root relationObjectId inhparent rel s =
  (index_phase root relationObjectId inhparent rel relation s ;;
   in_world (heap_close relation AccessShareLock) ;;
   partitioning_phase root relationObjectId rel s ;;
   fall_through_get_relation_info root relationObjectId inhparent rel)
    (set_world w s).
Proof.
  intros Hon Hopen. unfold hypo_get_relation_info_hook.
  rewrite bind_gets, Hon.
  rewrite bind_assoc.
  rewrite (bind_returns _ _ _ _ _ (in_world_returns _ _ _ _ Hopen)).
  rewrite bind_assoc.
  apply bind_backend_only.
  - unfold index_phase. destruct (relkind_takes_indexes _); [| reflexivity].
    rewrite bind_gets. apply foreach_inject_if_owned.
  - apply backend_only_index_phase.
  - intros _ w1. rewrite bind_assoc.
    apply bind_backend_only;
      [reflexivity | apply backend_only_in_world | intros _ w2].
    rewrite bind_assoc, bind_gets. reflexivity.
Qed.

(** C4. Inside the simulation window, for a relation that opens as an
    ordinary table (or, where the host has them, a materialized view), the
    relation-info hook calls [hypo_injectHypotheticalIndex] once for each
    registry entry whose [relid] is the relation's identifier, in the
    order of the registry, and for no other entry. *)
Theorem hypo_get_relation_info_hook_injects_matching_indexes
    (s : State World) (relation : Relation) (w : World)
    (Hon : HYPO_ENABLED s = true)
    (Hopen : heap_open relationObjectId AccessShareLock (world s)
             = (Ok relation, w))
    (Hkind : rd_rel_relkind relation = RELKIND_RELATION
             \/ ((90300 <= PG_VERSION_NUM)%Z
                 /\ rd_rel_relkind relation = RELKIND_MATVIEW)) :
  hypo_get_relation_info_hook root relationObjectId inhparent rel s =
    (inject_indexes root relationObjectId inhparent rel relation
       (matching_indexes relationObjectId s) ;;
     in_world (heap_close relation AccessShareLock) ;;
     partitioning_phase root relationObjectId rel s ;;
     fall_through_get_relation_info root relationObjectId inhparent rel)
      (set_world w s)
  /\ matching_indexes relationObjectId s
     = filter (fun entry => N.eqb (relid entry) relationObjectId) (hypoIndexes s)
  /\ (forall entry,
        In entry (matching_indexes relationObjectId s) <->
        In entry (hypoIndexes s) /\ relid entry = relationObjectId).
Proof.
  apply relkind_takes_indexes_spec in Hkind.
  split; [| split; [reflexivity | apply matching_indexes_spec]].
  rewrite (hypo_get_relation_info_hook_phases s relation w Hon Hopen).
  unfold index_phase. rewrite Hkind. reflexivity.
Qed.

(** C10. Inside the simulation window, for an identifier the registry
    holds as a hypothetical table, the relation-info hook calls
    [hypo_injectHypotheticalPartitioning] after closing the relation,
    whatever the kind of the relation it opened: the kind decides the
    index phase only, and for a kind that takes no index the hook is the
    closing, the partitioning injection and the delegation. *)
Theorem hypo_get_relation_info_hook_partitioning_any_relkind
    (s : State World) (relation : Relation) (w : World)
    (Hon : HYPO_ENABLED s = true)
    (Hopen : heap_open relationObjectId AccessShareLock (world s)
             = (Ok relation, w))
    (Hhypo : hypo_table_oid_is_hypothetical (hypoTables s) relationObjectId
             = true) :
  hypo_get_relation_info_hook root relationObjectId inhparent rel s =
    (index_phase root relationObjectId inhparent rel relation s ;;
     in_world (heap_close relation AccessShareLock) ;;
     in_world (hypo_injectHypotheticalPartitioning
                 (hypoTables s) root relationObjectId rel) ;;
     fall_through_get_relation_info root relationObjectId inhparent rel)
      (set_world w s)
  /\ (relkind_takes_indexes (rd_rel_relkind relation) = false ->
      hypo_get_relation_info_hook root relationObjectId inhparent rel s =
        (in_world (heap_close relation AccessShareLock) ;;
         in_world (hypo_injectHypotheticalPartitioning
                     (hypoTables s) root relationObjectId rel) ;;
         fall_through_get_relation_info root relationObjectId inhparent rel)
          (set_world w s)).
Proof.
  rewrite (hypo_get_relation_info_hook_phases s relation w Hon Hopen).
  unfold partitioning_phase. rewrite Hhypo.
  split; [reflexivity | intros Hkind].
  unfold index_phase. rewrite Hkind. reflexivity.
Qed.
End RelationInfo.

(** ** Outside the simulation window *)

Section Inactive.
Context {World : Type} {E : Extern World}.

Lemma HYPO_ENABLED_false (s : State World) :
  HYPO_ENABLED s = false <-> isExplain s = false \/ hypo_is_enabled s = false.
Proof. unfold HYPO_ENABLED. apply andb_false_iff. Qed.

(** A hook whose test fails before anything is injected. *)
Ltac falls_through Hoff :=
  intros;
  match goal with
  | |- ?hook_run = _ =>
      let h := eval cbv beta in hook_run in
      let f := head_of h in unfold f
  end;
  rewrite bind_gets; cbv beta; rewrite ?Hoff; reflexivity
with head_of t :=
  match t with
  | ?f _ => head_of f
  | _ => t
  end.

(** C2. Outside the simulation window (the flag is false, or the setting
    is off) each of the eight injection hooks is its fall-through and
    nothing else: it runs the saved handler from the state it was entered
    in, or, with none saved, changes nothing and answers nothing, [NULL],
    false or [NIL]. No helper of the injection engine is called and no
    relation is opened. *)
Theorem injection_hooks_fall_through_when_inactive (s : State World)
    (Hinactive : isExplain s = false \/ hypo_is_enabled s = false) :
  (forall root relationObjectId inhparent rel,
     hypo_get_relation_info_hook root relationObjectId inhparent rel s
     = fall_through_get_relation_info root relationObjectId inhparent rel s)
  /\ (forall root rel rti rte,
        hypo_set_rel_pathlist_hook root rel rti rte s
        = fall_through_set_rel_pathlist root rel rti rte s)
  /\ (forall relid,
        hypo_RelationGetPartitionDesc_hook relid s
        = fall_through_RelationGetPartitionDesc relid s)
  /\ (forall relid,
        hypo_RelationGetPartitionKey_hook relid s
        = fall_through_RelationGetPartitionKey relid s)
  /\ (forall parentOID,
        hypo_skip_has_subclass_hook parentOID s
        = fall_through_skip_has_subclass parentOID s)
  /\ (forall relid,
        hypo_find_all_inheritors_hook relid s
        = fall_through_find_all_inheritors relid s)
  /\ (forall root parentrte parentRTindex parentrel top_parentrc appinfos
             partdesc,
        hypo_expand_child_rtentry_hook root parentrte parentRTindex parentrel
          top_parentrc appinfos partdesc s
        = fall_through_expand_child_rtentry root parentrte parentRTindex
            parentrel top_parentrc appinfos partdesc s)
  /\ (forall childrte parentOID childOID,
        hypo_build_child_rtentry_hook childrte parentOID childOID s
        = fall_through_build_child_rtentry childrte parentOID childOID s).
Proof.
  apply HYPO_ENABLED_false in Hinactive.
  repeat split; falls_through Hinactive.
Qed.

(** With no handler saved, a fall-through leaves the state as it is. *)
Lemma fall_through_nothing_saved (s : State World) :
  prev s = (fun _ => None) ->
  (forall root relationObjectId inhparent rel,
     fall_through_get_relation_info root relationObjectId inhparent rel s
     = (Ok tt, s))
  /\ (forall relid, fall_through_RelationGetPartitionDesc relid s = (Ok None, s))
  /\ (forall relid, fall_through_RelationGetPartitionKey relid s = (Ok None, s))
  /\ (forall parentOID, fall_through_skip_has_subclass parentOID s = (Ok false, s))
  /\ (forall relid, fall_through_find_all_inheritors relid s = (Ok [], s)).
Proof.
  intros Hnone.
  unfold fall_through_get_relation_info, fall_through_RelationGetPartitionDesc,
    fall_through_RelationGetPartitionKey, fall_through_skip_has_subclass,
    fall_through_find_all_inheritors.
  repeat split; intros; rewrite bind_gets;
    unfold prev_get_relation_info_hook, prev_RelationGetPartitionDesc_hook,
      prev_RelationGetPartitionKey_hook, prev_skip_has_subclass_hook,
      prev_find_all_inheritors_hook;
    rewrite Hnone; reflexivity.
Qed.
End Inactive.

(** ** Inheritance queries inside the simulation window *)

Section Inheritance.
Context {World : Type} {E : Extern World}.

(** C6. Inside the simulation window the has-subclass hook answers true
    for an identifier the registry holds as a hypothetical table, calling
    nothing and changing nothing; for any other identifier it runs the
    saved handler, or answers false when none is saved. *)
Theorem hypo_skip_has_subclass_hook_spec (parentOID : Oid) (s : State World)
    (Hon : HYPO_ENABLED s = true) :
  (hypo_table_oid_is_hypothetical (hypoTables s) parentOID = true ->
     hypo_skip_has_subclass_hook parentOID s = (Ok true, s))
  /\ (hypo_table_oid_is_hypothetical (hypoTables s) parentOID = false ->
        (forall f, prev_skip_has_subclass_hook s = Some f ->
           hypo_skip_has_subclass_hook parentOID s
           = call_skip_has_subclass f parentOID s)
        /\ (prev_skip_has_subclass_hook s = None ->
              hypo_skip_has_subclass_hook parentOID s = (Ok false, s))).
Proof.
  unfold hypo_skip_has_subclass_hook. read_globals. rewrite Hon.
  split; intros Hhypo; rewrite Hhypo; simpl.
  - reflexivity.
  - rewrite bind_gets.
    split; [intros f Hsaved | intros Hsaved]; rewrite Hsaved; reflexivity.
Qed.

(** C5. Inside the simulation window the find-all-inheritors hook, for an
    identifier the registry holds as a hypothetical table, returns the
    identifier itself in front of the children
    [hypo_find_inheritance_children] gives for the table; it calls no
    saved handler and leaves the backend untouched. *)
Theorem hypo_find_all_inheritors_hook_spec (relid : Oid) (s : State World)
    (table : hypoTable)
    (Hon : HYPO_ENABLED s = true)
    (Hhypo : hypo_table_oid_is_hypothetical (hypoTables s) relid = true)
    (Hfound : hypo_find_table (hypoTables s) relid = Ok table) :
  hypo_find_all_inheritors_hook relid s
  = (Ok (relid :: hypo_find_inheritance_children (hypoTables s) table), s).
Proof.
  unfold hypo_find_all_inheritors_hook.
  read_globals. rewrite Hon, Hhypo. simpl.
  unfold bind, find_table. rewrite Hfound. reflexivity.
Qed.
End Inheritance.

(** ** Runs on the recording backend *)

Section Runs.
Import Recording.
Local Open Scope N_scope.

(** On the recording backend no handler behind the execution-completion
    hook writes the flag. *)
Lemma recording_next_ExecutorEnd_keeps (saved : option fnptr)
    (queryDesc : QueryDesc) :
  keeps_isExplain (next_ExecutorEnd (E := backend) saved queryDesc).
Proof.
  intros s. unfold next_ExecutorEnd, next_handler.
  destruct saved as [[p | addr] |]; simpl.
  - reflexivity.
  - unfold foreign_call. destruct (N.eqb addr 666); reflexivity.
  - destruct (N.eqb queryDesc 0); reflexivity.
Qed.

(** C1. The flag is not reset on every path out of a statement: a
    plan-only EXPLAIN whose processing raises leaves the utility hook with
    the flag still set, since the only reset is in the execution-completion
    hook, which that statement never reaches. With the setting on the
    window is then still open when the next statement is planned, and the
    relation-info hook injects the hypothetical indexes of table 16384 into
    it. *)
Theorem failed_explain_leaves_window_open :
  let failed := hypo_utility_hook explain_stmt (some_args "EXPLAIN SELECT 1/0")
                  (idle no_hooks) in
  hypo_query_walker explain_stmt = true
  /\ isExplain (idle no_hooks) = false
  /\ fst failed = Raise "division by zero"
  /\ isExplain (final failed) = true
  /\ HYPO_ENABLED (final failed) = true
  /\ world (final (hypo_get_relation_info_hook 0 16384 false 0 (final failed)))
     = [EvHeapOpen 16384;
        EvInjectIndex 16384 (mkHypoIndex 90001 16384);
        EvInjectIndex 16384 (mkHypoIndex 90003 16384);
        EvHeapClose 16384].
Proof.
  intros failed. subst failed. repeat split.
Qed.

(** The chained handler raises: it was started with the flag cleared, and
    the flag reads false in the state its error leaves. *)
Lemma hypo_executorEnd_hook_clears_before_delegating_witness :
  isExplain (explaining (chained 666)) = true
  /\ hypo_executorEnd_hook 1 (explaining (chained 666))
     = (Raise "error raised by the chained handler",
        set_isExplain false (explaining (chained 666)))
  /\ isExplain (final (hypo_executorEnd_hook 1 (explaining (chained 666))))
     = false.
Proof.
  split; [reflexivity |]. split.
  - rewrite (proj1 (hypo_executorEnd_hook_clears_before_delegating
                      1 (explaining (chained 666)))).
    reflexivity.
  - exact (proj1 (proj2 (proj2 (hypo_executorEnd_hook_clears_before_delegating
                                  1 (explaining (chained 666))))
                        (recording_next_ExecutorEnd_keeps _ 1))).
Defined.

(** With the setting off, an EXPLAIN opens no relation and injects
    nothing: only the chained handler runs. *)
Lemma injection_hooks_fall_through_when_inactive_witness :
  hypo_is_enabled (disabled (chained 5)) = false
  /\ world (final (hypo_get_relation_info_hook 0 16384 false 0
                     (disabled (chained 5))))
     = [EvForeign get_relation_info 5].
Proof.
  split; [reflexivity |].
  rewrite (proj1 (injection_hooks_fall_through_when_inactive
                    (disabled (chained 5)) (or_intror eq_refl))).
  reflexivity.
Defined.

(** Table 16384 owns the first and the third entry of the registry. *)
Lemma hypo_get_relation_info_hook_injects_matching_indexes_witness :
  world (final (hypo_get_relation_info_hook 0 16384 false 0
                  (explaining no_hooks)))
  = [EvHeapOpen 16384;
     EvInjectIndex 16384 (mkHypoIndex 90001 16384);
     EvInjectIndex 16384 (mkHypoIndex 90003 16384);
     EvHeapClose 16384].
Proof.
  rewrite (proj1 (hypo_get_relation_info_hook_injects_matching_indexes
                    0 16384 false 0 (explaining no_hooks)
                    (mkRelation 16384 "r"%char) [EvHeapOpen 16384]
                    ltac:(reflexivity) ltac:(reflexivity) (or_introl eq_refl))).
  reflexivity.
Defined.

(** Relation 16387 is a foreign table and a registered hypothetical
    table: no index is injected, the partitioning is. *)
Lemma hypo_get_relation_info_hook_partitioning_any_relkind_witness :
  relkind_takes_indexes (E := backend) (relkind_of 16387) = false
  /\ world (final (hypo_get_relation_info_hook 0 16387 false 0
                     (explaining no_hooks)))
     = [EvHeapOpen 16387; EvHeapClose 16387; EvInjectPartitioning 16387].
Proof.
  split; [reflexivity |].
  rewrite (proj1 (hypo_get_relation_info_hook_partitioning_any_relkind
                    0 16387 false 0 (explaining no_hooks)
                    (mkRelation 16387 "f"%char) [EvHeapOpen 16387]
                    ltac:(reflexivity) ltac:(reflexivity) ltac:(reflexivity))).
  reflexivity.
Defined.

(** The chained handler would raise; it is not called. *)
Lemma hypo_skip_has_subclass_hook_spec_witness :
  hypo_skip_has_subclass_hook 16390 (explaining (chained 666))
  = (Ok true, explaining (chained 666)).
Proof.
  exact (proj1 (hypo_skip_has_subclass_hook_spec
                  16390 (explaining (chained 666)) ltac:(reflexivity))
               ltac:(reflexivity)).
Defined.

Lemma hypo_find_all_inheritors_hook_spec_witness :
  hypo_find_all_inheritors_hook 16390 (explaining (chained 666))
  = (Ok [16390; 1639001; 1639002], explaining (chained 666)).
Proof.
  exact (hypo_find_all_inheritors_hook_spec
           16390 (explaining (chained 666)) (mkHypoTable 16390 (Some 5))
           ltac:(reflexivity) ltac:(reflexivity) ltac:(reflexivity)).
Defined.
End Runs.

(** * Further properties *)

(** ** The detector reads option names only *)

Lemma has_analyze_option_names (options : list DefElem) :
  has_analyze_option options <-> In "analyze" (map defname options).
Proof.
  unfold has_analyze_option. rewrite in_map_iff.
  split; intros (opt & H1 & H2); exists opt; tauto.
Qed.

Lemma explain_options_walker_names (l1 l2 : list DefElem) :
  same_option_names l1 l2 ->
  explain_options_walker l1 = explain_options_walker l2.
Proof.
  intros Hsame.
  destruct (explain_options_walker l2) eqn:H2.
  - apply explain_options_walker_true. apply explain_options_walker_true in H2.
    rewrite has_analyze_option_names in *. now rewrite (Hsame "analyze").
  - apply explain_options_walker_false. apply explain_options_walker_false in H2.
    rewrite has_analyze_option_names in *. now rewrite (Hsame "analyze").
Qed.

(** X1. The detector's answer for an EXPLAIN depends on the names of its
    options only: two EXPLAIN statements whose option lists carry the same
    names get the same answer, whatever the order of the options, their
    repetitions, their values, and the form the statement is handed in. So
    an "analyze" option with the value false still makes the answer
    false. *)
Theorem hypo_query_walker_names_only (stmt1 stmt2 : UtilityStmt)
    (l1 l2 : list DefElem)
    (Hfirst : statement_node stmt1 = Some (ExplainStmt l1))
    (Hsecond : statement_node stmt2 = Some (ExplainStmt l2))
    (Hsame : same_option_names l1 l2) :
  hypo_query_walker stmt1 = hypo_query_walker stmt2.
Proof.
  rewrite !hypo_query_walker_node, Hfirst, Hsecond. simpl.
  now apply explain_options_walker_names.
Qed.

Lemma hypo_query_walker_names_only_witness :
  hypo_query_walker
    (Parsetree (Some (ExplainStmt [mkDefElem "analyze" (Some "false");
                                   mkDefElem "verbose" None])))
  = hypo_query_walker
      (Pstmt (Some (mkPlannedStmt
                      (Some (ExplainStmt [mkDefElem "verbose" (Some "on");
                                          mkDefElem "analyze" None;
                                          mkDefElem "analyze" (Some "true")])))))
  /\ hypo_query_walker
       (Parsetree (Some (ExplainStmt [mkDefElem "analyze" (Some "false");
                                      mkDefElem "verbose" None]))) = false.
Proof.
  split; [| reflexivity].
  apply (hypo_query_walker_names_only
           (Parsetree (Some (ExplainStmt [mkDefElem "analyze" (Some "false");
                                          mkDefElem "verbose" None])))
           (Pstmt (Some (mkPlannedStmt
                           (Some (ExplainStmt [mkDefElem "verbose" (Some "on");
                                               mkDefElem "analyze" None;
                                               mkDefElem "analyze" (Some "true")])))))
           _ _ eq_refl eq_refl).
  intros name. simpl. tauto.
Defined.

(** ** The window the utility hook opens *)

(** Unfolds the hook at the head of an equation between runs. *)
Ltac head_constant t :=
  match t with
  | ?f _ => head_constant f
  | _ => t
  end.

Ltac unfold_hook :=
  match goal with
  | |- ?run = _ => let f := head_constant run in unfold f
  end.

Section Window.
Context {World : Type} {E : Extern World}.

Lemma outside_window_all_fall_through (s : State World) :
  HYPO_ENABLED s = false -> all_hooks_fall_through s.
Proof.
  intros Hoff. unfold all_hooks_fall_through.
  repeat split; intros; unfold_hook; read_globals; rewrite Hoff; reflexivity.
Qed.

(** X2. The utility hook sets the flag from the statement alone and never
    resets it: when the handler it delegates to does not write the flag,
    the flag after the hook is the detector's answer for the statement,
    whatever it was before and whether the statement returned or raised. A
    plan-only EXPLAIN that raises leaves the flag set. *)
Theorem hypo_utility_hook_flag_is_detector_answer (stmt : UtilityStmt)
    (args : UtilityArgs) (s : State World)
    (Hkeeps : keeps_isExplain
                (next_ProcessUtility (prev_utility_hook s) stmt args)) :
  isExplain (final (hypo_utility_hook stmt args s)) = hypo_query_walker stmt
  /\ (forall before,
        isExplain (final (hypo_utility_hook stmt args (set_isExplain before s)))
        = hypo_query_walker stmt)
  /\ (forall msg s',
        hypo_utility_hook stmt args s = (Raise msg, s') ->
        isExplain s' = hypo_query_walker stmt).
Proof.
  split; [now apply hypo_utility_hook_leaves_flag |].
  split.
  - intros before. now apply hypo_utility_hook_leaves_flag.
  - intros msg s' Hraise.
    pose proof (hypo_utility_hook_leaves_flag stmt args s Hkeeps) as Hflag.
    now rewrite Hraise in Hflag.
Qed.

(** X3. The handler the utility hook delegates to starts from the entry
    state with the flag set to the detector's answer: the window is open
    there exactly when the statement is a plan-only EXPLAIN and the setting
    is on, and for every other statement (no EXPLAIN, an EXPLAIN with an
    "analyze" option, no statement) each injection hook falls through
    there, even when the flag was still set on entry. *)
Theorem hypo_utility_hook_window (stmt : UtilityStmt) (args : UtilityArgs)
    (s : State World) :
  let started := set_isExplain (hypo_query_walker stmt) s in
  hypo_utility_hook stmt args s
  = next_ProcessUtility (prev_utility_hook s) stmt args started
  /\ HYPO_ENABLED started = hypo_query_walker stmt && hypo_is_enabled s
  /\ (hypo_query_walker stmt = false -> all_hooks_fall_through started).
Proof.
  intros started. subst started.
  split; [apply hypo_utility_hook_steps |].
  split; [reflexivity |].
  intros Hrejected. apply outside_window_all_fall_through.
  unfold HYPO_ENABLED. simpl. now rewrite Hrejected.
Qed.
End Window.

(** ** Loading, unloading and other extensions *)

Section Loading.
Context {World : Type} {E : Extern World}.

(** A property of the globals that calls on the backend cannot break holds
    at the end of a sequence when each part keeps it. *)
Lemma bind_invariant {A B : Type} (P : State World -> Prop)
    (m : M World A) (k : A -> M World B) :
  (forall s, P s -> P (final (m s))) ->
  (forall a s, P s -> P (final (k a s))) ->
  forall s, P s -> P (final (bind m k s)).
Proof.
  intros Hm Hk s HP. unfold bind. specialize (Hm s HP).
  destruct (m s) as [[a | msg] s']; simpl in *; [now apply Hk | exact Hm].
Qed.

Lemma in_world_invariant {A : Type} (P : State World -> Prop)
    (f : World -> Result A * World) :
  (forall s w, P s -> P (set_world w s)) ->
  forall s, P s -> P (final (in_world f s)).
Proof.
  intros Hworld s HP. unfold in_world.
  destruct (f (world s)) as [r w]. simpl. now apply Hworld.
Qed.

Lemma init_globals_resets (s : State World) :
  isExplain (final (init_globals s)) = false
  /\ hypoIndexes (final (init_globals s)) = []
  /\ hypoTables (final (init_globals s)) = hypoTables s.
Proof.
  unfold init_globals. repeat (rewrite bind_modify; cbv beta).
  set (P := fun x : State World =>
              isExplain x = false /\ hypoIndexes x = []
              /\ hypoTables x = hypoTables s).
  change (P (final (bind (in_world (AllocSetContextCreate "HypoPG context"))
                         (fun ctx =>
                            modify (set_HypoMemoryContext (Some ctx)) ;;
                            enabled <- in_world
                              (DefineCustomBoolVariable "hypopg.enabled"
                                 "Enable / Disable hypopg" true) ;;
                            modify (set_hypo_is_enabled enabled))
                         (set_hypoIndexes [] (set_isExplain false s))))).
  apply bind_invariant; [| intros ctx | subst P; simpl; tauto].
  - apply in_world_invariant. subst P. simpl. tauto.
  - apply bind_invariant; [subst P; simpl; tauto | intros _].
    apply bind_invariant; [| intros enabled; subst P; simpl; tauto].
    apply in_world_invariant. subst P. simpl. tauto.
Qed.

(** X4. When [_PG_init] is over, returned or raised, the flag is false and
    the registry of hypothetical indexes is empty, the registry of
    hypothetical tables is as it was, and the window is closed: each
    injection hook falls through until the utility hook sees a plan-only
    EXPLAIN. *)
Theorem PG_init_leaves_window_closed (s : State World) :
  let loaded := final (_PG_init s) in
  isExplain loaded = false
  /\ hypoIndexes loaded = []
  /\ hypoTables loaded = hypoTables s
  /\ HYPO_ENABLED loaded = false
  /\ all_hooks_fall_through loaded.
Proof.
  intros loaded. subst loaded. rewrite PG_init_split.
  destruct (init_globals_resets (final (wrap_all s))) as (Hflag & Hidx & Htab).
  assert (Hoff : HYPO_ENABLED (final (init_globals (final (wrap_all s)))) = false)
    by (unfold HYPO_ENABLED; now rewrite Hflag).
  split; [exact Hflag |]. split; [exact Hidx |].
  split; [rewrite Htab; reflexivity |].
  split; [exact Hoff | now apply outside_window_all_fall_through].
Qed.

(** X5. [_PG_fini] always returns, writes nothing but the hook variables,
    and is idempotent: a second teardown leaves every hook variable as the
    first one left it. *)
Theorem PG_fini_idempotent (s : State World) (p : HookPoint) :
  let once := final (_PG_fini s) in
  let twice := final (_PG_fini once) in
  fst (_PG_fini s) = Ok tt
  /\ hook twice p = hook once p
  /\ prev once p = prev s p
  /\ isExplain once = isExplain s
  /\ hypo_is_enabled once = hypo_is_enabled s
  /\ hypoIndexes once = hypoIndexes s
  /\ hypoTables once = hypoTables s
  /\ world once = world s.
Proof.
  intros once twice. subst once twice.
  destruct p; repeat split; reflexivity.
Qed.

Lemma prev_set_hook (t : HookTable) (s : State World) :
  prev (set_hook t s) = prev s.
Proof. reflexivity. Qed.

(** X6. Teardown does not look at what the hook variables hold: whatever
    handlers another extension put there after [_PG_init], [_PG_fini] sets
    every point back to the handler it held before [_PG_init], so an
    extension loaded later is cut out of the chain. *)
Theorem PG_fini_drops_later_handlers (s : State World) (later : HookTable)
    (p : HookPoint) :
  let layered := overlay later (final (_PG_init s)) in
  hook layered p = later p
  /\ hook (final (_PG_fini layered)) p = hook s p.
Proof.
  intros layered. subst layered. split; [reflexivity |].
  destruct (PG_fini_restores (overlay later (final (_PG_init s))) p) as [_ Hback].
  rewrite Hback. unfold overlay. rewrite prev_set_hook.
  destruct (PG_init_tables s) as [_ Hprev]. rewrite Hprev.
  exact (proj1 (wrap_all_tables s p)).
Qed.
End Loading.

(** ** Errors and idle runs of the relation-info hook *)

Section RelationInfoEdges.
Context {World : Type} {E : Extern World}.

Variables (root : PlannerInfo) (relationObjectId : Oid) (inhparent : bool)
          (rel : RelOptInfo).

Lemma in_world_raises {A : Type} (f : World -> Result A * World)
    (s : State World) (msg : string) (w : World) :
  f (world s) = (Raise msg, w) -> in_world f s = (Raise msg, set_world w s).
Proof. intros Hf. unfold in_world. now rewrite Hf. Qed.

Lemma bind_ext {A B : Type} (m : M World A) (k k' : A -> M World B)
    (s : State World) :
  (forall a s', k a s' = k' a s') -> bind m k s = bind m k' s.
Proof.
  intros Hk. unfold bind. destruct (m s) as [[a | msg] s']; [apply Hk | reflexivity].
Qed.

Lemma inject_indexes_app (relation : Relation) (l1 l2 : list hypoIndex)
    (s : State World) :
  inject_indexes root relationObjectId inhparent rel relation (l1 ++ l2) s =
  (inject_indexes root relationObjectId inhparent rel relation l1 ;;
   inject_indexes root relationObjectId inhparent rel relation l2) s.
Proof.
  revert s. unfold inject_indexes.
  induction l1 as [| entry l1 IH]; intros s; [reflexivity |].
  simpl. rewrite bind_assoc. apply bind_ext. intros _ s'. apply IH.
Qed.

Lemma no_matching_index (s : State World) :
  (forall entry, In entry (hypoIndexes s) -> relid entry <> relationObjectId) ->
  matching_indexes relationObjectId s = [].
Proof.
  unfold matching_indexes. intros Hnone.
  induction (hypoIndexes s) as [| entry l IH]; [reflexivity |].
  simpl. unfold owned_by at 1.
  destruct (N.eqb_spec (relid entry) relationObjectId) as [Heq | _].
  - exfalso. apply (Hnone entry); [now left | exact Heq].
  - apply IH. intros e He. apply Hnone. now right.
Qed.

(** X7. Inside the simulation window, when the relation cannot be opened
    the relation-info hook leaves through that error: nothing is injected
    and the saved handler is not called. *)
Theorem hypo_get_relation_info_hook_open_error (s : State World)
    (msg : string) (w : World)
    (Hon : HYPO_ENABLED s = true)
    (Hopen : heap_open relationObjectId AccessShareLock (world s)
             = (Raise msg, w)) :
  hypo_get_relation_info_hook root relationObjectId inhparent rel s
  = (Raise msg, set_world w s).
Proof.
  unfold hypo_get_relation_info_hook. rewrite bind_gets, Hon.
  rewrite bind_assoc. apply bind_raises. now apply in_world_raises.
Qed.

(** X8. Inside the simulation window, when the injection of one matching
    entry raises, the hook leaves through that error at once: the matching
    entries before it have been injected, those after it are not, the
    relation is not closed, no partitioning is injected and the saved
    handler is not called. *)
Theorem hypo_get_relation_info_hook_injection_error (s s1 : State World)
    (relation : Relation) (w w2 : World) (before after : list hypoIndex)
    (entry : hypoIndex) (msg : string)
    (Hon : HYPO_ENABLED s = true)
    (Hopen : heap_open relationObjectId AccessShareLock (world s)
             = (Ok relation, w))
    (Hkind : relkind_takes_indexes (rd_rel_relkind relation) = true)
    (Hsplit : matching_indexes relationObjectId s
              = (before ++ entry :: after)%list)
    (Hbefore : inject_indexes root relationObjectId inhparent rel relation
                 before (set_world w s) = (Ok tt, s1))
    (Hfail : hypo_injectHypotheticalIndex root relationObjectId inhparent rel
               relation entry (world s1) = (Raise msg, w2)) :
  hypo_get_relation_info_hook root relationObjectId inhparent rel s
  = (Raise msg, set_world w2 s1).
Proof.
  rewrite (hypo_get_relation_info_hook_phases
             root relationObjectId inhparent rel s relation w Hon Hopen).
  apply bind_raises.
  unfold index_phase. rewrite Hkind, Hsplit, inject_indexes_app.
  rewrite (bind_returns _ _ _ _ _ Hbefore).
  unfold inject_indexes. simpl. apply bind_raises. now apply in_world_raises.
Qed.

(** X9. Inside the simulation window, for a relation that no registry
    entry names and that is no hypothetical table, the hook opens the
    relation, closes it and delegates: it reaches the catalog for every
    relation planned, whatever its kind, and injects nothing. *)
Theorem hypo_get_relation_info_hook_unrelated_relation (s : State World)
    (relation : Relation) (w : World)
    (Hon : HYPO_ENABLED s = true)
    (Hopen : heap_open relationObjectId AccessShareLock (world s)
             = (Ok relation, w))
    (Hnone : forall entry,
               In entry (hypoIndexes s) -> relid entry <> relationObjectId)
    (Hplain : hypo_table_oid_is_hypothetical (hypoTables s) relationObjectId
              = false) :
  hypo_get_relation_info_hook root relationObjectId inhparent rel s
  = (in_world (heap_close relation AccessShareLock) ;;
     fall_through_get_relation_info root relationObjectId inhparent rel)
      (set_world w s).
Proof.
  rewrite (hypo_get_relation_info_hook_phases
             root relationObjectId inhparent rel s relation w Hon Hopen).
  unfold index_phase, partitioning_phase.
  rewrite (no_matching_index s Hnone), Hplain.
  assert (Hidle : forall k : unit -> M World unit,
            bind (if relkind_takes_indexes (rd_rel_relkind relation)
                  then inject_indexes root relationObjectId inhparent rel
                         relation []
                  else ret tt) k (set_world w s) = k tt (set_world w s))
    by (intros k; destruct (relkind_takes_indexes _); reflexivity).
  rewrite Hidle. apply bind_ext. reflexivity.
Qed.
End RelationInfoEdges.

(** ** The partitioning hooks *)

Section PartitioningHooks.
Context {World : Type} {E : Extern World}.

(** X10. The seven hooks that answer for hypothetical tables test the
    identifier as well as the window: for an identifier that is no
    hypothetical table each of them is its fall-through, inside the window
    as outside. The identifier is the entry's [relid] for the path-list
    and child-construction hooks and the parent's [rd_id] for the
    child-expansion hook. *)
Theorem partitioning_hooks_fall_through_for_real_tables (s : State World) :
  (forall root rel rti rte,
     hypo_table_oid_is_hypothetical (hypoTables s) (rte_relid rte) = false ->
     hypo_set_rel_pathlist_hook root rel rti rte s
     = fall_through_set_rel_pathlist root rel rti rte s)
  /\ (forall relid,
        hypo_table_oid_is_hypothetical (hypoTables s) relid = false ->
        hypo_RelationGetPartitionDesc_hook relid s
        = fall_through_RelationGetPartitionDesc relid s)
  /\ (forall relid,
        hypo_table_oid_is_hypothetical (hypoTables s) relid = false ->
        hypo_RelationGetPartitionKey_hook relid s
        = fall_through_RelationGetPartitionKey relid s)
  /\ (forall parentOID,
        hypo_table_oid_is_hypothetical (hypoTables s) parentOID = false ->
        hypo_skip_has_subclass_hook parentOID s
        = fall_through_skip_has_subclass parentOID s)
  /\ (forall relid,
        hypo_table_oid_is_hypothetical (hypoTables s) relid = false ->
        hypo_find_all_inheritors_hook relid s
        = fall_through_find_all_inheritors relid s)
  /\ (forall root parentrte parentRTindex parentrel top_parentrc appinfos
             partdesc,
        hypo_table_oid_is_hypothetical (hypoTables s) (rd_id parentrel) = false ->
        hypo_expand_child_rtentry_hook root parentrte parentRTindex parentrel
          top_parentrc appinfos partdesc s
        = fall_through_expand_child_rtentry root parentrte parentRTindex
            parentrel top_parentrc appinfos partdesc s)
  /\ (forall childrte parentOID childOID,
        hypo_table_oid_is_hypothetical (hypoTables s) (rte_relid childrte) = false ->
        hypo_build_child_rtentry_hook childrte parentOID childOID s
        = fall_through_build_child_rtentry childrte parentOID childOID s).
Proof.
  repeat split; intros; unfold_hook; read_globals;
    match goal with H : _ = false |- _ => rewrite H end;
    rewrite andb_false_r; reflexivity.
Qed.

(** X11. Inside the simulation window the partition-key hook answers for a
    hypothetical table with the [partkey] of the table the registry
    returns, or leaves through the error of the lookup; either way it
    changes nothing and never calls the saved handler. *)
Theorem hypo_RelationGetPartitionKey_hook_active (relid : Oid) (s : State World)
    (Hon : HYPO_ENABLED s = true)
    (Hhypo : hypo_table_oid_is_hypothetical (hypoTables s) relid = true) :
  (forall table,
     hypo_find_table (hypoTables s) relid = Ok table ->
     hypo_RelationGetPartitionKey_hook relid s = (Ok (partkey table), s))
  /\ (forall msg,
        hypo_find_table (hypoTables s) relid = Raise msg ->
        hypo_RelationGetPartitionKey_hook relid s = (Raise msg, s)).
Proof.
  unfold hypo_RelationGetPartitionKey_hook. read_globals.
  rewrite Hon, Hhypo. simpl. unfold bind, find_table.
  split; intros x Hfind; rewrite Hfind; reflexivity.
Qed.

(** X12. Inside the simulation window the partition-descriptor hook
    answers for a hypothetical table with what
    [hypo_generate_partitiondesc] builds for the table the registry
    returns, or leaves through the error of the lookup; it never calls the
    saved handler. *)
Theorem hypo_RelationGetPartitionDesc_hook_active (relid : Oid) (s : State World)
    (Hon : HYPO_ENABLED s = true)
    (Hhypo : hypo_table_oid_is_hypothetical (hypoTables s) relid = true) :
  (forall table,
     hypo_find_table (hypoTables s) relid = Ok table ->
     hypo_RelationGetPartitionDesc_hook relid s
     = in_world (hypo_generate_partitiondesc (hypoTables s) table) s)
  /\ (forall msg,
        hypo_find_table (hypoTables s) relid = Raise msg ->
        hypo_RelationGetPartitionDesc_hook relid s = (Raise msg, s)).
Proof.
  unfold hypo_RelationGetPartitionDesc_hook. read_globals.
  rewrite Hon, Hhypo. simpl. unfold bind, find_table.
  split; intros x Hfind; rewrite Hfind; reflexivity.
Qed.

(** X13. Inside the simulation window the path-list hook calls
    [hypo_setPartitionPathlist] for an entry whose [relid] is a
    hypothetical table only when the entry's [relkind] is 'r', and then
    still runs the saved handler; for any other [relkind] it is its
    fall-through. *)
Theorem hypo_set_rel_pathlist_hook_active (root : PlannerInfo)
    (rel : RelOptInfo) (rti : Index) (rte : RangeTblEntry) (s : State World)
    (Hon : HYPO_ENABLED s = true)
    (Hhypo : hypo_table_oid_is_hypothetical (hypoTables s) (rte_relid rte)
             = true) :
  (rte_relkind rte = "r"%char ->
     hypo_set_rel_pathlist_hook root rel rti rte s
     = (in_world (hypo_setPartitionPathlist (hypoTables s) root rel rti rte) ;;
        fall_through_set_rel_pathlist root rel rti rte) s)
  /\ (rte_relkind rte <> "r"%char ->
        hypo_set_rel_pathlist_hook root rel rti rte s
        = fall_through_set_rel_pathlist root rel rti rte s).
Proof.
  unfold hypo_set_rel_pathlist_hook. read_globals. rewrite Hon, Hhypo.
  split; intros Hkind.
  - rewrite Hkind. reflexivity.
  - apply Ascii.eqb_neq in Hkind. rewrite Hkind. reflexivity.
Qed.

(** X14. Inside the simulation window the two child range-table hooks, for
    a hypothetical table, run their injection helper and then the saved
    handler as well: the helper comes first, and when it raises the saved
    handler is not called. *)
Theorem child_rtentry_hooks_active (s : State World)
    (Hon : HYPO_ENABLED s = true) :
  (forall root parentrte parentRTindex parentrel top_parentrc appinfos partdesc,
     hypo_table_oid_is_hypothetical (hypoTables s) (rd_id parentrel) = true ->
     hypo_expand_child_rtentry_hook root parentrte parentRTindex parentrel
       top_parentrc appinfos partdesc s
     = (in_world (hypo_ExpandChildRTE (hypoTables s) root parentrte
                    parentRTindex parentrel top_parentrc appinfos partdesc) ;;
        fall_through_expand_child_rtentry root parentrte parentRTindex
          parentrel top_parentrc appinfos partdesc) s
     /\ (forall msg w,
           hypo_ExpandChildRTE (hypoTables s) root parentrte parentRTindex
             parentrel top_parentrc appinfos partdesc (world s) = (Raise msg, w) ->
           hypo_expand_child_rtentry_hook root parentrte parentRTindex parentrel
             top_parentrc appinfos partdesc s = (Raise msg, set_world w s)))
  /\ (forall childrte parentOID childOID,
        hypo_table_oid_is_hypothetical (hypoTables s) (rte_relid childrte) = true ->
        hypo_build_child_rtentry_hook childrte parentOID childOID s
        = (in_world (hypo_BuildChildRTE (hypoTables s) childrte parentOID
                       childOID) ;;
           fall_through_build_child_rtentry childrte parentOID childOID) s
        /\ (forall msg w,
              hypo_BuildChildRTE (hypoTables s) childrte parentOID childOID
                (world s) = (Raise msg, w) ->
              hypo_build_child_rtentry_hook childrte parentOID childOID s
              = (Raise msg, set_world w s))).
Proof.
  split.
  - intros root parentrte parentRTindex parentrel top_parentrc appinfos
           partdesc Hhypo.
    unfold hypo_expand_child_rtentry_hook. read_globals.
    rewrite Hon, Hhypo. simpl.
    split; [reflexivity | intros msg w Hfail].
    apply bind_raises. now apply in_world_raises.
  - intros childrte parentOID childOID Hhypo.
    unfold hypo_build_child_rtentry_hook. read_globals.
    rewrite Hon, Hhypo. simpl.
    split; [reflexivity | intros msg w Hfail].
    apply bind_raises. now apply in_world_raises.
Qed.
End PartitioningHooks.

(** ** Locks taken while an identifier is allocated *)

Section AllocationLocks.
Context {World : Type} {E : Extern World} {O : ExternOid World}.

(** The locks a backend holds, newest first, and how the host's calls
    account for them: opening a relation takes the lock asked for on the
    relation it returns, closing a relation with the mode of its newest
    lock releases that lock, and [GetNewRelFileNode] takes and releases
    none. *)
Variable held : World -> list (Oid * LOCKMODE).

Hypothesis heap_open_locks :
  forall relid mode w relation w',
    heap_open relid mode w = (Ok relation, w') ->
    rd_id relation = relid /\ held w' = (relid, mode) :: held w.

Hypothesis heap_close_unlocks :
  forall relation mode w w' rest,
    heap_close relation mode w = (Ok tt, w') ->
    held w = (rd_id relation, mode) :: rest ->
    held w' = rest.

Hypothesis GetNewRelFileNode_keeps_locks :
  forall reltablespace pg_class relpersistence w r w',
    GetNewRelFileNode reltablespace pg_class relpersistence w = (r, w') ->
    held w' = held w.

(** X15. When [hypo_getNewOid] returns, the backend holds the locks it
    held before: the share lock on the relation is released before
    [pg_class] is opened, so [GetNewRelFileNode] runs with the
    row-exclusive lock on [pg_class] as the only lock added, and that lock
    is released before the identifier is returned. The identifier returned
    is the one [GetNewRelFileNode] gave. *)
Theorem hypo_getNewOid_releases_its_locks (relid : Oid) (s s' : State World)
    (newoid : Oid)
    (Hrun : hypo_getNewOid relid s = (Ok newoid, s')) :
  held (world s') = held (world s)
  /\ exists reltablespace pg_class relpersistence w w',
       GetNewRelFileNode reltablespace pg_class relpersistence w
       = (Ok newoid, w')
       /\ rd_id pg_class = RelationRelationId
       /\ held w = (RelationRelationId, RowExclusiveLock) :: held (world s).
Proof.
  unfold hypo_getNewOid, bind, in_world, gets in Hrun. simpl in Hrun.
  destruct (heap_open relid AccessShareLock (world s))
    as [[relation | m] w1] eqn:H1; [| discriminate].
  simpl in Hrun.
  destruct (heap_close relation AccessShareLock w1)
    as [[[] | m] w2] eqn:H2; [| discriminate].
  simpl in Hrun.
  destruct (heap_open RelationRelationId RowExclusiveLock w2)
    as [[pg_class | m] w3] eqn:H3; [| discriminate].
  simpl in Hrun.
  destruct (GetNewRelFileNode _ pg_class _ w3) as [[n | m] w4] eqn:H4;
    [| discriminate].
  simpl in Hrun.
  destruct (heap_close pg_class RowExclusiveLock w4)
    as [[[] | m] w5] eqn:H5; [| discriminate].
  simpl in Hrun. injection Hrun as <- <-. simpl.
  destruct (heap_open_locks _ _ _ _ _ H1) as [Hid1 Hheld1].
  rewrite <- Hid1 in Hheld1.
  pose proof (heap_close_unlocks _ _ _ _ _ H2 Hheld1) as Hheld2.
  destruct (heap_open_locks _ _ _ _ _ H3) as [Hid3 Hheld3].
  pose proof (GetNewRelFileNode_keeps_locks _ _ _ _ _ _ H4) as Hheld4.
  rewrite Hheld3, <- Hid3 in Hheld4.
  pose proof (heap_close_unlocks _ _ _ _ _ H5 Hheld4) as Hheld5.
  split; [congruence |].
  eexists _, pg_class, _, w3, w4.
  split; [exact H4 |]. split; [exact Hid3 | congruence].
Qed.

(** X16. When [GetNewRelFileNode] raises, [hypo_getNewOid] leaves through
    that error with the row-exclusive lock on [pg_class] still held:
    nothing on this path closes [pg_class]. The share lock on the relation
    has been released. *)
Theorem hypo_getNewOid_allocation_error (relid : Oid) (s : State World)
    (relation pg_class : Relation) (w1 w2 w3 w4 : World) (msg : string)
    (Hopen : heap_open relid AccessShareLock (world s) = (Ok relation, w1))
    (Hclose : heap_close relation AccessShareLock w1 = (Ok tt, w2))
    (Hcatalog : heap_open RelationRelationId RowExclusiveLock w2
                = (Ok pg_class, w3))
    (Hfail : GetNewRelFileNode (rd_rel_reltablespace relation w1) pg_class
               (rd_rel_relpersistence relation w1) w3 = (Raise msg, w4)) :
  hypo_getNewOid relid s = (Raise msg, set_world w4 s)
  /\ held w4 = (RelationRelationId, RowExclusiveLock) :: held (world s).
Proof.
  split.
  - unfold hypo_getNewOid, bind, in_world, gets. simpl.
    rewrite Hopen. simpl. rewrite Hclose. simpl. rewrite Hcatalog. simpl.
    rewrite Hfail. reflexivity.
  - destruct (heap_open_locks _ _ _ _ _ Hopen) as [Hid1 Hheld1].
    rewrite <- Hid1 in Hheld1.
    pose proof (heap_close_unlocks _ _ _ _ _ Hclose Hheld1) as Hheld2.
    destruct (heap_open_locks _ _ _ _ _ Hcatalog) as [_ Hheld3].
    pose proof (GetNewRelFileNode_keeps_locks _ _ _ _ _ _ Hfail) as Hheld4.
    congruence.
Qed.
End AllocationLocks.

(** ** Further runs *)

Section FurtherRuns.
Import Recording.
Local Open Scope N_scope.

Lemma recording_next_ProcessUtility_keeps (saved : option fnptr)
    (stmt : UtilityStmt) (args : UtilityArgs) :
  keeps_isExplain (next_ProcessUtility (E := Recording.backend) saved stmt args).
Proof.
  intros s. unfold next_ProcessUtility, next_handler.
  destruct saved as [[p | addr] |]; simpl.
  - reflexivity.
  - unfold foreign_call. destruct (N.eqb addr 666); reflexivity.
  - destruct (String.eqb (queryString args) "EXPLAIN SELECT 1/0"); reflexivity.
Qed.

(** A plan-only EXPLAIN raises while it is planned: the flag stays set. *)
Lemma hypo_utility_hook_flag_is_detector_answer_witness :
  fst (hypo_utility_hook explain_stmt (some_args "EXPLAIN SELECT 1/0")
         (idle no_hooks)) = Raise "division by zero"
  /\ isExplain (final (hypo_utility_hook explain_stmt
                         (some_args "EXPLAIN SELECT 1/0") (idle no_hooks)))
     = true.
Proof.
  split; [reflexivity |].
  exact (proj1 (hypo_utility_hook_flag_is_detector_answer
                  explain_stmt (some_args "EXPLAIN SELECT 1/0") (idle no_hooks)
                  (recording_next_ProcessUtility_keeps _ _ _))).
Defined.

(** Relation 0 does not exist: the chained handler is not reached. *)
Lemma hypo_get_relation_info_hook_open_error_witness :
  hypo_get_relation_info_hook 0 0 false 0 (explaining (chained 5))
  = (Raise "could not open relation", set_world [] (explaining (chained 5))).
Proof.
  exact (hypo_get_relation_info_hook_open_error
           0 0 false 0 (explaining (chained 5)) "could not open relation" []
           ltac:(reflexivity) ltac:(reflexivity)).
Defined.

(** The injection of entry 90003 raises: entry 90001 has been injected and
    relation 16384 stays open. *)
Lemma hypo_get_relation_info_hook_injection_error_witness :
  fst (hypo_get_relation_info_hook (E := Faulty.backend 90003)
         0 16384 false 0 (explaining (chained 5)))
  = Raise "hypopg: cannot build the index"
  /\ world (final (hypo_get_relation_info_hook (E := Faulty.backend 90003)
                     0 16384 false 0 (explaining (chained 5))))
     = [EvHeapOpen 16384; EvInjectIndex 16384 (mkHypoIndex 90001 16384)].
Proof.
  rewrite (hypo_get_relation_info_hook_injection_error
             (E := Faulty.backend 90003) 0 16384 false 0
             (explaining (chained 5))
             (set_world [EvHeapOpen 16384;
                         EvInjectIndex 16384 (mkHypoIndex 90001 16384)]
                        (explaining (chained 5)))
             (mkRelation 16384 "r"%char) [EvHeapOpen 16384]
             [EvHeapOpen 16384; EvInjectIndex 16384 (mkHypoIndex 90001 16384)]
             [mkHypoIndex 90001 16384] [] (mkHypoIndex 90003 16384)
             "hypopg: cannot build the index"
             ltac:(reflexivity) ltac:(reflexivity) ltac:(reflexivity)
             ltac:(reflexivity) ltac:(reflexivity) ltac:(reflexivity)).
  split; reflexivity.
Defined.

(** Relation 16385 is a view that the registry does not name. *)
Lemma hypo_get_relation_info_hook_unrelated_relation_witness :
  world (final (hypo_get_relation_info_hook 0 16385 false 0
                  (explaining (chained 5))))
  = [EvHeapOpen 16385; EvHeapClose 16385; EvForeign get_relation_info 5].
Proof.
  rewrite (hypo_get_relation_info_hook_unrelated_relation
             0 16385 false 0 (explaining (chained 5))
             (mkRelation 16385 "v"%char) [EvHeapOpen 16385]
             ltac:(reflexivity) ltac:(reflexivity)
             ltac:(simpl; intros entry [<- | [<- | [<- | []]]]; discriminate)
             ltac:(reflexivity)).
  reflexivity.
Defined.

(** The chained handler would raise; it is not called. *)
Lemma hypo_RelationGetPartitionKey_hook_active_witness :
  hypo_RelationGetPartitionKey_hook 16390 (explaining (chained 666))
  = (Ok (Some 5), explaining (chained 666)).
Proof.
  exact (proj1 (hypo_RelationGetPartitionKey_hook_active
                  16390 (explaining (chained 666))
                  ltac:(reflexivity) ltac:(reflexivity))
               (mkHypoTable 16390 (Some 5)) ltac:(reflexivity)).
Defined.

Lemma hypo_RelationGetPartitionDesc_hook_active_witness :
  fst (hypo_RelationGetPartitionDesc_hook 16390 (explaining (chained 666)))
  = Ok (Some 16390)
  /\ world (final (hypo_RelationGetPartitionDesc_hook 16390
                     (explaining (chained 666))))
     = [EvGeneratePartitionDesc 16390].
Proof.
  rewrite (proj1 (hypo_RelationGetPartitionDesc_hook_active
                    16390 (explaining (chained 666))
                    ltac:(reflexivity) ltac:(reflexivity))
                 (mkHypoTable 16390 (Some 5)) ltac:(reflexivity)).
  split; reflexivity.
Defined.

(** An ordinary-table entry for the hypothetical table 16390. *)
Lemma hypo_set_rel_pathlist_hook_active_witness :
  world (final (hypo_set_rel_pathlist_hook 0 0 1
                  (mkRangeTblEntry 0 16390 "r"%char) (explaining (chained 5))))
  = [EvSetPartitionPathlist 16390; EvForeign set_rel_pathlist 5].
Proof.
  rewrite (proj1 (hypo_set_rel_pathlist_hook_active
                    0 0 1 (mkRangeTblEntry 0 16390 "r"%char)
                    (explaining (chained 5))
                    ltac:(reflexivity) ltac:(reflexivity))
                 ltac:(reflexivity)).
  reflexivity.
Defined.

(** The children of 16390 are expanded, then the chained handler runs. *)
Lemma child_rtentry_hooks_active_witness :
  world (final (hypo_expand_child_rtentry_hook 0
                  (mkRangeTblEntry 0 16390 "r"%char) 1
                  (mkRelation 16390 "r"%char) 0 0 None
                  (explaining (chained 5))))
  = [EvExpandChildRTE 16390; EvForeign expand_child_rtentry 5].
Proof.
  rewrite (proj1 (proj1 (child_rtentry_hooks_active
                           (explaining (chained 5)) ltac:(reflexivity))
                        0 (mkRangeTblEntry 0 16390 "r"%char) 1
                        (mkRelation 16390 "r"%char) 0 0 None
                        ltac:(reflexivity))).
  reflexivity.
Defined.
End FurtherRuns.

Section LedgerRuns.
Import Ledger.
Local Open Scope N_scope.

Lemma same_lock_refl (l : Oid * LOCKMODE) : same_lock l l = true.
Proof.
  unfold same_lock. rewrite N.eqb_refl. now destruct (snd l).
Qed.

Lemma ledger_heap_open_locks (relid : Oid) (mode : LOCKMODE) (w : World)
    (relation : Relation) (w' : World) :
  heap_open (Extern := Ledger.backend) relid mode w = (Ok relation, w') ->
  rd_id relation = relid /\ held w' = (relid, mode) :: held w.
Proof.
  simpl. destruct (N.eqb relid 0); [discriminate |].
  intros [= <- <-]. split; reflexivity.
Qed.

Lemma ledger_heap_close_unlocks (relation : Relation) (mode : LOCKMODE)
    (w w' : World) (rest : list (Oid * LOCKMODE)) :
  heap_close (Extern := Ledger.backend) relation mode w = (Ok tt, w') ->
  held w = (rd_id relation, mode) :: rest ->
  held w' = rest.
Proof.
  simpl. intros [= <-] Hheld. unfold held in *. simpl.
  rewrite Hheld. simpl. now rewrite same_lock_refl.
Qed.

Lemma ledger_GetNewRelFileNode_keeps_locks (reltablespace : Oid)
    (pg_class : Relation) (relpersistence : ascii) (w : World)
    (r : Result Oid) (w' : World) :
  GetNewRelFileNode (ExternOid := Ledger.catalog)
    reltablespace pg_class relpersistence w = (r, w') ->
  held w' = held w.
Proof.
  simpl. destruct (N.eqb reltablespace 9999); intros [= _ <-]; reflexivity.
Qed.

(** An identifier for an index on relation 16400: the lock the session
    held is the only one left. *)
Lemma hypo_getNewOid_releases_its_locks_witness :
  fst (hypo_getNewOid (E := Ledger.backend) (O := Ledger.catalog) 16400 session)
  = Ok 20000
  /\ held (world (final (hypo_getNewOid (E := Ledger.backend)
                           (O := Ledger.catalog) 16400 session)))
     = [(16384, AccessShareLock)].
Proof.
  split; [reflexivity |].
  exact (proj1 (hypo_getNewOid_releases_its_locks
                  (E := Ledger.backend) (O := Ledger.catalog) held
                  ledger_heap_open_locks ledger_heap_close_unlocks
                  ledger_GetNewRelFileNode_keeps_locks
                  16400 session
                  (final (hypo_getNewOid (E := Ledger.backend)
                            (O := Ledger.catalog) 16400 session))
                  20000 ltac:(reflexivity))).
Defined.

(** Relation 777 lives in a tablespace that has no identifier left. *)
Lemma hypo_getNewOid_allocation_error_witness :
  fst (hypo_getNewOid (E := Ledger.backend) (O := Ledger.catalog) 777 session)
  = Raise "no identifier left in the tablespace"
  /\ held ([(1259, RowExclusiveLock); (16384, AccessShareLock)], 20000)
     = (RelationRelationId, RowExclusiveLock) :: held (world session).
Proof.
  split; [reflexivity |].
  exact (proj2 (hypo_getNewOid_allocation_error
                  (E := Ledger.backend) (O := Ledger.catalog) held
                  ledger_heap_open_locks ledger_heap_close_unlocks
                  ledger_GetNewRelFileNode_keeps_locks
                  777 session (mkRelation 777 "r"%char)
                  (mkRelation 1259 "r"%char)
                  ([(777, AccessShareLock); (16384, AccessShareLock)], 20000)
                  ([(16384, AccessShareLock)], 20000)
                  ([(1259, RowExclusiveLock); (16384, AccessShareLock)], 20000)
                  ([(1259, RowExclusiveLock); (16384, AccessShareLock)], 20000)
                  "no identifier left in the tablespace"
                  ltac:(reflexivity) ltac:(reflexivity) ltac:(reflexivity)
                  ltac:(reflexivity))).
Defined.
End LedgerRuns.
